(** * Synthetic RSD dataset generator: a shallow embedding of
      [Data Set/generate_rsd_dataset.py] and the properties of its pipeline.

    The script is one linear pipeline over a table of [n] records.  Its
    columns are modelled as lists, NumPy's element-wise operations as
    [fmap]/[zip_with], IEEE binary64 numbers by the Standard Library's
    executable specification [SpecFloat], and the global NumPy generator
    as an explicit state threaded through a state-and-exception monad. *)

From Stdlib Require Import ZArith Lia Strings.String SpecFloat.
From stdpp Require Import list.

Open Scope Z_scope.

(** ** Binary64 numbers

    Python floats and NumPy float64 values are IEEE 754 binary64:
    [prec = 53], [emax = 1024], rounding to nearest even. *)
Module F64.
Definition prec : Z := 53.
Definition emax : Z := 1024.

Definition float : Type := spec_float.

Definition add : float → float → float := SFadd prec emax.
Definition sub : float → float → float := SFsub prec emax.
Definition mul : float → float → float := SFmul prec emax.
Definition div : float → float → float := SFdiv prec emax.
Definition opp : float → float := SFopp.
Definition ltb : float → float → bool := SFltb.
Definition leb : float → float → bool := SFleb.
Definition gtb (x y : float) : bool := SFltb y x.
Definition abs : float → float := SFabs.

(** [float(z)] for a Python or NumPy integer. *)
Definition of_Z (z : Z) : float := binary_normalize prec emax z 0 false.

(** The decimal literal [num/den] ([den] a power of ten): the binary64
    number nearest to it, which is what a correctly rounded division of
    the two exactly representable integers gives. *)
Definition lit (num den : Z) : float := div (of_Z num) (of_Z den).

Definition zero : float := S754_zero false.
Definition one : float := of_Z 1.

Definition is_nan (x : float) : bool :=
  match x with S754_nan => true | _ => false end.

Definition is_finite (x : float) : bool :=
  match x with S754_zero _ | S754_finite _ _ _ => true | _ => false end.

(** [int(x)]: truncation towards zero; [None] where Python raises
    (infinities and NaN). *)
Definition to_int (x : float) : option Z :=
  match x with
  | S754_zero _ => Some 0
  | S754_finite s m e => Some (cond_Zopp s (Z.shiftl (Z.pos m) e))
  | _ => None
  end.

(** [bool.astype(float)]. *)
Definition of_bool (b : bool) : float := if b then one else zero.

(** NumPy's [maximum]/[minimum] kernels as used by [np.clip]: a NaN first
    operand is kept, otherwise the comparison decides. *)
Definition max (a b : float) : float :=
  if is_nan a then a else if gtb a b then a else b.
Definition min (a b : float) : float :=
  if is_nan a then a else if ltb a b then a else b.

(** [np.clip(x, lo, hi)]. *)
Definition clip (x lo hi : float) : float := min (max x lo) hi.

(** [np.minimum(a, b)]: NaN from either side propagates. *)
Definition minimum (a b : float) : float :=
  if is_nan b then b else min a b.

(** [0 <= x <= 1]. *)
Definition in_unit (x : float) : bool := leb zero x && leb x one.

(** A zero, or a positive finite number or infinity. *)
Definition nonneg (x : float) : bool :=
  match x with
  | S754_zero _ | S754_infinity false | S754_finite false _ _ => true
  | _ => false
  end.

Definition is_pos_finite (x : float) : bool :=
  match x with S754_finite false _ _ => true | _ => false end.
End F64.

Abbreviation float := F64.float.

(** [signed s x]: [x] is a zero, a finite number or an infinity of sign
    [s] (so not a NaN). *)
Definition signed (s : bool) (x : float) : Prop :=
  match x with
  | S754_zero s' | S754_infinity s' | S754_finite s' _ _ => s' = s
  | S754_nan => False
  end.
Abbreviation lit := F64.lit.

Declare Scope f64_scope.
Delimit Scope f64_scope with f64.
Infix "+" := F64.add : f64_scope.
Infix "-" := F64.sub : f64_scope.
Infix "*" := F64.mul : f64_scope.
Infix "/" := F64.div : f64_scope.
Infix "<?" := F64.ltb : f64_scope.
Infix ">?" := F64.gtb : f64_scope.
Infix "<=?" := F64.leb : f64_scope.

(** ** Categorical values *)

Inductive Country :=
  Syria | Afghanistan | Sudan | Myanmar | Eritrea | Venezuela | Iraq | Somalia.
Inductive Gender := Male | Female | NonBinary.
Inductive Education := EduNone | Primary | Secondary | Tertiary.
Inductive Language := LangNone | Basic | Intermediate | Advanced | Fluent.
Inductive Ground :=
  race | religion | nationality | political_opinion | social_group.
Inductive PType :=
  violence | detention | threats | sexual_violence | discrimination.
Inductive Decision := approve | deny.
Inductive Outcome := NA | overturned | upheld.
Inductive BiasFlag := none | moderate | severe.

#[global] Instance Country_eq_dec : EqDecision Country.
Proof. solve_decision. Defined.
#[global] Instance PType_eq_dec : EqDecision PType.
Proof. solve_decision. Defined.
#[global] Instance Decision_eq_dec : EqDecision Decision.
Proof. solve_decision. Defined.
#[global] Instance Outcome_eq_dec : EqDecision Outcome.
Proof. solve_decision. Defined.

Definition countries : list Country :=
  [Syria; Afghanistan; Sudan; Myanmar; Eritrea; Venezuela; Iraq; Somalia].
Definition genders : list Gender := [Male; Female; NonBinary].
Definition education_levels : list Education :=
  [EduNone; Primary; Secondary; Tertiary].
Definition language_levels : list Language :=
  [LangNone; Basic; Intermediate; Advanced; Fluent].
Definition persecution_grounds : list Ground :=
  [race; religion; nationality; political_opinion; social_group].
Definition persecution_types : list PType :=
  [violence; detention; threats; sexual_violence; discrimination].
Definition bias_levels : list BiasFlag := [none; moderate; severe].

(** [Series.isin(values)] on one element. *)
Definition isin `{EqDecision A} (x : A) (values : list A) : bool :=
  bool_decide (x ∈ values).

(** ** Exceptions and the generator monad

    Every [np.random] call reads and updates NumPy's global generator, and
    may raise.  [M G A] is a computation over a generator state [G]. *)

Inductive exn :=
  | ValueError (msg : string)
  | OverflowError (msg : string)
  | KeyError (msg : string).

Inductive result (A : Type) :=
  | Ok (a : A)
  | Raise (e : exn).
Arguments Ok {A} a.
Arguments Raise {A} e.

Definition M (G A : Type) : Type := G → result (A * G).

#[global] Instance M_ret {G} : MRet (M G) := λ A a g, Ok (a, g).
#[global] Instance M_bind {G} : MBind (M G) := λ A B f c g,
  match c g with
  | Ok (a, g') => f a g'
  | Raise e => Raise e
  end.

Definition raise {G A} (e : exn) : M G A := λ _, Raise e.

(** A Python [for] loop that appends one computed value per element. *)
Fixpoint for_each {G A B} (f : A → M G B) (xs : list A) : M G (list B) :=
  match xs with
  | [] => mret []
  | x :: xs' => y ← f x; ys ← for_each f xs'; mret (y :: ys)
  end.

(** ** The [np.random] interface

    The legacy [np.random.*] functions, each acting on the global generator.
    [size] arguments are Python integers. *)
Class RandomState (G : Type) := {
  (** [np.random.seed(s)] *)
  np_seed : Z → G;
  (** [np.random.choice(a, size, p=p)], with replacement *)
  choice : ∀ {A}, list A → option (list float) → Z → M G (list A);
  (** [np.random.choice(a, p=p)]: one draw *)
  choice1 : ∀ {A}, list A → list float → M G A;
  (** [np.random.choice(a, size=size, replace=False)] *)
  choice_no_replace : list nat → Z → M G (list nat);
  (** [np.random.randint(low, high, size)] *)
  randint : Z → Z → Z → M G (list Z);
  (** [np.random.normal(loc, scale, size)] *)
  normal : float → float → Z → M G (list float);
  (** [np.random.binomial(n, p)] with an array [p] *)
  binomial : Z → list float → M G (list Z);
  (** [np.random.random(size)] and [np.random.rand(size)] *)
  random_sample : Z → M G (list float);
  (** [np.random.rand()] *)
  rand1 : M G float;
}.

(** ** Vectorised helpers *)

Definition zip_with3 {A B C D} (f : A → B → C → D)
    (xs : list A) (ys : list B) (zs : list C) : list D :=
  zip_with (λ g z, g z) (zip_with f xs ys) zs.

Definition zip_with4 {A B C D E} (f : A → B → C → D → E)
    (xs : list A) (ys : list B) (zs : list C) (ws : list D) : list E :=
  zip_with (λ g w, g w) (zip_with3 f xs ys zs) ws.

(** [range(a, b)] *)
Definition range (a b : Z) : list Z := seqZ a (b - a).

(** [int(x)] on a float *)
Definition py_int {G} (x : float) : M G Z :=
  match F64.to_int x with
  | Some z => mret z
  | None =>
      if F64.is_nan x
      then raise (ValueError "cannot convert float NaN to integer")
      else raise (OverflowError "cannot convert float infinity to integer")
  end.

(** [col.loc[idx] = v]: label-based assignment of a scalar on a frame whose
    index is [0..len-1]; an unknown label raises. *)
Definition loc_set {G A} (col : list A) (idx : list nat) (v : A) : M G (list A) :=
  if forallb (λ i, bool_decide (i < length col)%nat) idx
  then mret (foldl (λ acc i, <[i:=v]> acc) col idx)
  else raise (KeyError "not in index").

(** [col.loc[mask] = v]: assignment through a boolean mask. *)
Definition mask_set {A} (col : list A) (mask : list bool) (v : A) : list A :=
  zip_with (λ c (m : bool), if m then v else c) col mask.

(** [df[mask].index]: the labels of the rows where [mask] holds. *)
Definition index_where (mask : list bool) : list nat :=
  filter (λ i, mask !! i = Some true) (seq 0 (length mask)).

(** [col.loc[idx]]: the values at the given labels, carrying those labels. *)
Definition loc_get {A} (col : list A) (idx : list nat) : list (nat * A) :=
  omap (λ i, (i,.) <$> col !! i) idx.

(** [col.loc[idx] = series]: assignment of a labelled series, aligned on
    the labels. *)
Definition loc_set_series {A} (col : list A) (series : list (nat * A)) : list A :=
  foldl (λ acc '(i, v), <[i:=v]> acc) col series.

(** ** PART 1 - applicant inputs *)

Record Applicants := {
  id : list Z;
  country_of_origin : list Country;
  gender : list Gender;
  age : list Z;
  education_level : list Education;
  language_proficiency : list Language;
  family_size : list Z;
  prior_camp_years : list Z;
  persecution_ground : list Ground;
  persecution_type : list PType;
  nexus_established : list bool;
  state_protection_score : list float;
  internal_relocation_possible : list bool;
  reported_trauma : list bool;
}.

(** lines 74-76: [np.where(country.isin([...]), 0.65, 0.40)] on one row *)
Definition trauma_base_country (c : Country) : float :=
  if isin c [Syria; Afghanistan; Eritrea; Somalia]
  then lit 65 100 else lit 40 100.

(** lines 77-81: [np.where(ptype.isin([...]), np.minimum(tb + 0.15, 0.85), tb)]
    on one row *)
Definition trauma_base_ptype (p : PType) (tb : float) : float :=
  if isin p [sexual_violence; detention]
  then F64.minimum (tb + lit 15 100)%f64 (lit 85 100) else tb.

Definition trauma_base (country : list Country) (ptype : list PType) : list float :=
  let trauma_base := trauma_base_country <$> country in
  zip_with trauma_base_ptype ptype trauma_base.

Section Pipeline.
Context {G : Type} `{RandomState G}.

Definition part1 (n : Z) : M G Applicants :=
  let id := range 1 (n + 1) in
  country_of_origin ← choice countries None n;
  gender ← choice genders (Some [lit 48 100; lit 48 100; lit 4 100]) n;
  age ← randint 18 65 n;
  education_level ←
    choice education_levels (Some [lit 1 10; lit 3 10; lit 4 10; lit 2 10]) n;
  language_proficiency ←
    choice language_levels
      (Some [lit 5 100; lit 25 100; lit 4 10; lit 2 10; lit 1 10]) n;
  family_size ← randint 1 7 n;
  prior_camp_years ← randint 0 10 n;
  persecution_ground ← choice persecution_grounds None n;
  persecution_type ← choice persecution_types None n;
  nexus_established ← choice [true; false] (Some [lit 7 10; lit 3 10]) n;
  sp ← normal (lit 3 10) (lit 15 100) n;
  let state_protection_score :=
    (λ x, F64.clip x (lit 5 100) F64.one) <$> sp in
  internal_relocation_possible ←
    choice [true; false] (Some [lit 4 10; lit 6 10]) n;
  let trauma_base := trauma_base country_of_origin persecution_type in
  trauma ← binomial 1 trauma_base;
  let reported_trauma := (λ k, bool_decide (k ≠ 0)) <$> trauma in
  mret {| id := id; country_of_origin := country_of_origin; gender := gender;
          age := age; education_level := education_level;
          language_proficiency := language_proficiency;
          family_size := family_size; prior_camp_years := prior_camp_years;
          persecution_ground := persecution_ground;
          persecution_type := persecution_type;
          nexus_established := nexus_established;
          state_protection_score := state_protection_score;
          internal_relocation_possible := internal_relocation_possible;
          reported_trauma := reported_trauma |}.

(** ** PART 2 - scoring functions *)

Definition language_map (l : Language) : float :=
  match l with
  | LangNone => F64.opp (lit 20 100)
  | Basic => F64.opp (lit 10 100)
  | Intermediate => F64.zero
  | Advanced => lit 5 100
  | Fluent => lit 10 100
  end.

Definition edu_map (e : Education) : float :=
  match e with
  | EduNone => F64.opp (lit 10 100)
  | Primary => F64.zero
  | Secondary => lit 5 100
  | Tertiary => lit 10 100
  end.

Definition risk_means (c : Country) : float :=
  match c with
  | Syria => lit 85 100 | Afghanistan => lit 80 100 | Sudan => lit 75 100
  | Myanmar => lit 70 100 | Eritrea => lit 70 100 | Venezuela => lit 55 100
  | Iraq => lit 65 100 | Somalia => lit 78 100
  end.

Definition ptype_map (p : PType) : float :=
  match p with
  | violence => lit 10 100
  | detention => lit 5 100
  | threats => F64.zero
  | sexual_violence => lit 15 100
  | discrimination => F64.opp (lit 5 100)
  end.

Definition gender_map (g : Gender) : float :=
  match g with
  | Male => F64.zero
  | Female => lit 8 100
  | NonBinary => lit 6 100
  end.

(** line 100: [np.where(reported_trauma, -0.08, 0.0)] on one row *)
Definition trauma_penalty_of (t : bool) : float :=
  if t then F64.opp (lit 8 100) else F64.zero.

(** line 102 on one row *)
Definition credibility_of (base_cred lang_effect edu_effect trauma_penalty : float)
    : float :=
  F64.clip (base_cred + lang_effect + edu_effect + trauma_penalty)%f64
           F64.zero F64.one.

(** line 124 on one row *)
Definition raw_risk_of (base_risk ptype_effect gender_effect noise : float)
    : float :=
  (base_risk + ptype_effect + gender_effect + noise)%f64.

(** lines 129-134 on one row; [age] is an integer column, so the
    subtraction and [abs] are integer operations and [/] is true division *)
Definition integration_of (credibility : float) (age : Z) (u : float) : float :=
  F64.clip
    (lit 4 10 * credibility
     + lit 2 10 * (F64.one - F64.of_Z (Z.abs (age - 35)) / F64.of_Z 35)
     + lit 4 10 * u)%f64
    F64.zero F64.one.

Record Scores := {
  credibility_score : list float;
  risk_score : list float;
  risk_score_uncapped : list float;
  integration_score : list float;
}.

Definition part2 (n : Z) (df : Applicants) : M G Scores :=
  base_cred ← normal (lit 65 100) (lit 15 100) n;
  let lang_effect := language_map <$> language_proficiency df in
  let edu_effect := edu_map <$> education_level df in
  let trauma_penalty := trauma_penalty_of <$> reported_trauma df in
  let credibility_score :=
    zip_with4 credibility_of base_cred lang_effect edu_effect trauma_penalty in
  let base_risk := risk_means <$> country_of_origin df in
  let ptype_effect := ptype_map <$> persecution_type df in
  let gender_effect := gender_map <$> gender df in
  noise ← normal F64.zero (lit 5 100) n;
  let raw_risk :=
    zip_with4 raw_risk_of base_risk ptype_effect gender_effect noise in
  let risk_score := (λ x, F64.clip x F64.zero F64.one) <$> raw_risk in
  u ← random_sample n;
  let integration_score :=
    zip_with3 integration_of credibility_score (age df) u in
  mret {| credibility_score := credibility_score; risk_score := risk_score;
          risk_score_uncapped := raw_risk;
          integration_score := integration_score |}.

(** ** PART 3 - AI decision logic *)

(** lines 143-148 on one row *)
Definition approve_score_of (risk credibility : float) (nexus : bool)
    (state_protection : float) : float :=
  (lit 45 100 * risk
   + lit 30 100 * credibility
   + lit 15 100 * F64.of_bool nexus
   + lit 10 100 * (F64.one - state_protection))%f64.

(** lines 153-159 on one row *)
Definition decide_of (approve_score credibility : float) (nexus : bool)
    : Decision :=
  if (approve_score >? lit 62 100)%f64
     && (credibility >? lit 50 100)%f64
     && Bool.eqb nexus true
  then approve else deny.

Definition part3 (df : Applicants) (sc : Scores) : list Decision :=
  let approve_score :=
    zip_with4 approve_score_of (risk_score sc) (credibility_score sc)
              (nexus_established df) (state_protection_score df) in
  zip_with3 decide_of approve_score (credibility_score sc)
            (nexus_established df).

(** ** PART 4 - human-in-the-loop oversight *)

(** the lambda of lines 182-184 *)
Definition flip (x : Decision) : Decision :=
  if decide (x = approve) then deny else approve.

Record Oversight := {
  human_reviewed : list bool;
  human_override : list bool;
  final_decision : list Decision;
  processing_time_days : list Z;
}.

Definition part4 (n : Z) (df : Applicants) (AI_decision : list Decision)
    : M G Oversight :=
  let index := seq 0 (length (id df)) in
  let human_reviewed := replicate (length index) false in
  let human_override := replicate (length index) false in
  size ← py_int (lit 10 100 * F64.of_Z n)%f64;
  reviewed_idx ← choice_no_replace index size;
  human_reviewed ← loc_set human_reviewed reviewed_idx true;
  r ← random_sample n;
  let flip_mask :=
    zip_with (λ reviewed x, reviewed && (x <? lit 50 100)%f64)
             human_reviewed r in
  let human_override := mask_set human_override flip_mask true in
  let final_decision := AI_decision in
  let flip_idx := index_where human_override in
  let final_decision :=
    loc_set_series final_decision
      (prod_map Datatypes.id flip <$> loc_get AI_decision flip_idx) in
  base_time ← randint 30 120 n;
  delay ← randint 20 60 n;
  let review_delay :=
    zip_with (λ (reviewed : bool) d, if reviewed then d else 0)
             human_reviewed delay in
  mret {| human_reviewed := human_reviewed; human_override := human_override;
          final_decision := final_decision;
          processing_time_days := zip_with Z.add base_time review_delay |}.

(** ** PART 5 - appeals and bias audit *)

Record Outcomes := {
  appealed : list bool;
  appeal_outcome : list Outcome;
  bias_flag : list BiasFlag;
}.

(** lines 202-207: the body of the first loop *)
Definition appeal_outcome_of (appealed : bool) : M G Outcome :=
  if negb appealed then mret NA
  else x ← rand1;
       if (x <? lit 40 100)%f64 then mret overturned else mret upheld.

(** lines 215-220: the weights passed to [np.random.choice] *)
Definition bias_probs_of (reported_trauma : bool) (credibility : float)
    (nexus : bool) (final : Decision) : list float :=
  if reported_trauma && (credibility <? lit 5 10)%f64
  then [lit 40 100; lit 40 100; lit 20 100]
  else if nexus && bool_decide (final = deny)
  then [lit 50 100; lit 35 100; lit 15 100]
  else [lit 80 100; lit 15 100; lit 5 100].

(** lines 215-220: the body of the second loop *)
Definition bias_flag_of (row : bool * float * bool * Decision) : M G BiasFlag :=
  let '(reported_trauma, credibility, nexus, final) := row in
  choice1 bias_levels (bias_probs_of reported_trauma credibility nexus final).

Definition part5 (n : Z) (df : Applicants) (sc : Scores) (ov : Oversight)
    : M G Outcomes :=
  appeal_rand ← random_sample n;
  let appealed :=
    zip_with (λ f x, bool_decide (f = deny) && (x <? lit 30 100)%f64)
             (final_decision ov) appeal_rand in
  appeal_outcomes ← for_each appeal_outcome_of appealed;
  let rows :=
    zip_with4 (λ t c x f, (t, c, x, f)) (reported_trauma df)
              (credibility_score sc) (nexus_established df)
              (final_decision ov) in
  bias_probs ← for_each bias_flag_of rows;
  mret {| appealed := appealed; appeal_outcome := appeal_outcomes;
          bias_flag := bias_probs |}.

(** ** PART 6 - the table and the script *)

Record DataFrame := {
  inputs : Applicants;
  scores : Scores;
  AI_decision : list Decision;
  oversight : Oversight;
  outcomes : Outcomes;
}.

Definition generate (n : Z) : M G DataFrame :=
  df ← part1 n;
  sc ← part2 n df;
  let ai := part3 df sc in
  ov ← part4 n df ai;
  out ← part5 n df sc ov;
  mret {| inputs := df; scores := sc; AI_decision := ai;
          oversight := ov; outcomes := out |}.

(** What a run leaves behind: the CSV file written by the last statement,
    or the traceback of the exception that stopped the script. *)
Inductive Run :=
  | Saved (csv : DataFrame)
  | Traceback (e : exn).

(** The script with its two constants as parameters ([n = 500],
    [np.random.seed(42)] in the source). *)
Definition script (seed n : Z) : Run :=
  match generate n (np_seed seed) with
  | Ok (df, _) => Saved df
  | Raise e => Traceback e
  end.
End Pipeline.

(** ** Records (rows) of the table *)

Module Rec.
Record t := {
  id : Z;
  country_of_origin : Country;
  gender : Gender;
  age : Z;
  education_level : Education;
  language_proficiency : Language;
  family_size : Z;
  prior_camp_years : Z;
  persecution_ground : Ground;
  persecution_type : PType;
  nexus_established : bool;
  state_protection_score : float;
  internal_relocation_possible : bool;
  reported_trauma : bool;
  credibility_score : float;
  risk_score : float;
  risk_score_uncapped : float;
  integration_score : float;
  AI_decision : Decision;
  human_reviewed : bool;
  human_override : bool;
  final_decision : Decision;
  processing_time_days : Z;
  appealed : bool;
  appeal_outcome : Outcome;
  bias_flag : BiasFlag;
}.
End Rec.

(** The record at position [i]: one value from every column, in
    [column_order]. *)
Definition row_at (df : DataFrame) (i : nat) : option Rec.t :=
  c1 ← id (inputs df) !! i;
  c2 ← country_of_origin (inputs df) !! i;
  c3 ← gender (inputs df) !! i;
  c4 ← age (inputs df) !! i;
  c5 ← education_level (inputs df) !! i;
  c6 ← language_proficiency (inputs df) !! i;
  c7 ← family_size (inputs df) !! i;
  c8 ← prior_camp_years (inputs df) !! i;
  c9 ← persecution_ground (inputs df) !! i;
  c10 ← persecution_type (inputs df) !! i;
  c11 ← nexus_established (inputs df) !! i;
  c12 ← state_protection_score (inputs df) !! i;
  c13 ← internal_relocation_possible (inputs df) !! i;
  c14 ← reported_trauma (inputs df) !! i;
  c15 ← credibility_score (scores df) !! i;
  c16 ← risk_score (scores df) !! i;
  c17 ← risk_score_uncapped (scores df) !! i;
  c18 ← integration_score (scores df) !! i;
  c19 ← AI_decision df !! i;
  c20 ← human_reviewed (oversight df) !! i;
  c21 ← human_override (oversight df) !! i;
  c22 ← final_decision (oversight df) !! i;
  c23 ← processing_time_days (oversight df) !! i;
  c24 ← appealed (outcomes df) !! i;
  c25 ← appeal_outcome (outcomes df) !! i;
  c26 ← bias_flag (outcomes df) !! i;
  Some {| Rec.id := c1; Rec.country_of_origin := c2; Rec.gender := c3;
          Rec.age := c4; Rec.education_level := c5;
          Rec.language_proficiency := c6; Rec.family_size := c7;
          Rec.prior_camp_years := c8; Rec.persecution_ground := c9;
          Rec.persecution_type := c10; Rec.nexus_established := c11;
          Rec.state_protection_score := c12;
          Rec.internal_relocation_possible := c13;
          Rec.reported_trauma := c14; Rec.credibility_score := c15;
          Rec.risk_score := c16; Rec.risk_score_uncapped := c17;
          Rec.integration_score := c18; Rec.AI_decision := c19;
          Rec.human_reviewed := c20; Rec.human_override := c21;
          Rec.final_decision := c22; Rec.processing_time_days := c23;
          Rec.appealed := c24; Rec.appeal_outcome := c25;
          Rec.bias_flag := c26 |}.

(** [len(df)] *)
Definition nrows (df : DataFrame) : nat := length (id (inputs df)).

Definition rows (df : DataFrame) : list Rec.t :=
  omap (row_at df) (seq 0 (nrows df)).

(** ** What NumPy guarantees about its generator

    The argument checks and the ranges of the legacy [np.random] functions
    that the script relies on.  Nothing is said about distributions. *)

(** [choice] accepts [p] when it has the size of [a], has no negative
    entry, and sums to 1 within [sqrt(eps) = 2^-26]. *)
Definition atol : float := (F64.one / F64.of_Z (2 ^ 26))%f64.

Definition valid_p {A} (a : list A) (p : option (list float)) : bool :=
  match p with
  | None => true
  | Some p =>
      bool_decide (length p = length a)
      && forallb (λ x, negb (x <? F64.zero)%f64) p
      && (F64.abs (foldl F64.add F64.zero p - F64.one) <=? atol)%f64
  end.

(** [0 <= x < 1] *)
Definition unit_interval (x : float) : bool :=
  (F64.zero <=? x)%f64 && (x <? F64.one)%f64.

Class RandomStateSpec (G : Type) `{RandomState G} : Prop := {
  choice_negative : ∀ A (a : list A) p n g,
    n < 0 →
    choice a p n g = Raise (ValueError "negative dimensions are not allowed");
  choice_spec : ∀ A (a : list A) p n g,
    0 ≤ n → a ≠ [] → valid_p a p = true →
    ∃ xs g', choice a p n g = Ok (xs, g')
             ∧ length xs = Z.to_nat n ∧ ∀ x, x ∈ xs → x ∈ a;
  choice1_spec : ∀ A (a : list A) p g,
    a ≠ [] → valid_p a (Some p) = true →
    ∃ x g', choice1 a p g = Ok (x, g') ∧ x ∈ a;
  choice_no_replace_negative : ∀ (a : list nat) k g,
    k < 0 →
    choice_no_replace a k g
    = Raise (ValueError "negative dimensions are not allowed");
  choice_no_replace_large : ∀ (a : list nat) k g,
    Z.of_nat (length a) < k →
    choice_no_replace a k g
    = Raise (ValueError
        "Cannot take a larger sample than population when 'replace=False'");
  choice_no_replace_spec : ∀ (a : list nat) k g,
    0 ≤ k ≤ Z.of_nat (length a) → NoDup a →
    ∃ xs g', choice_no_replace a k g = Ok (xs, g')
             ∧ length xs = Z.to_nat k ∧ NoDup xs ∧ ∀ x, x ∈ xs → x ∈ a;
  randint_spec : ∀ low high n g,
    0 ≤ n → low < high →
    ∃ xs g', randint low high n g = Ok (xs, g')
             ∧ length xs = Z.to_nat n ∧ ∀ x, x ∈ xs → low ≤ x < high;
  normal_spec : ∀ loc scale n g,
    0 ≤ n → F64.is_finite loc = true → F64.is_finite scale = true →
    (F64.zero <=? scale)%f64 = true →
    ∃ xs g', normal loc scale n g = Ok (xs, g')
             ∧ length xs = Z.to_nat n ∧ ∀ x, x ∈ xs → F64.is_finite x = true;
  binomial_spec : ∀ k (p : list float) g,
    0 ≤ k → (∀ x, x ∈ p → F64.in_unit x = true) →
    ∃ xs g', binomial k p g = Ok (xs, g')
             ∧ length xs = length p ∧ ∀ x, x ∈ xs → 0 ≤ x ≤ k;
  random_sample_spec : ∀ n g,
    0 ≤ n →
    ∃ xs g', random_sample n g = Ok (xs, g')
             ∧ length xs = Z.to_nat n ∧ ∀ x, x ∈ xs → unit_interval x = true;
  rand1_spec : ∀ g,
    ∃ x g', rand1 g = Ok (x, g') ∧ unit_interval x = true;
}.

(** ** A small concrete generator

    A linear congruential generator with inverse-CDF sampling.  It is not
    NumPy's Mersenne Twister; it is an executable instance of the interface
    on which the pipeline can be run. *)
Module Lcg.
Definition next (s : Z) : Z := (s * 1103515245 + 12345) mod 2147483648.

Definition bits (s : Z) : Z := (s / 65536) mod 1024.

(** a float in [0, 1) *)
Definition unit (s : Z) : float := (F64.of_Z (bits s) / F64.of_Z 1024)%f64.

Fixpoint draws {A} (k : nat) (f : Z → A) (s : Z) : list A * Z :=
  match k with
  | O => ([], s)
  | S k' => let s' := next s in
            let '(xs, s'') := draws k' f s' in (f s' :: xs, s'')
  end.

Fixpoint pick {A} (a : list A) (p : list float) (u : float) (d : A) : A :=
  match a, p with
  | x :: a', q :: p' => if (u <? q)%f64 then x else pick a' p' (u - q)%f64 d
  | _, _ => d
  end.

Definition pick_one {A} (a : list A) (p : option (list float)) (d : A)
    (s : Z) : A :=
  match p with
  | None => nth (Z.to_nat (bits s) mod length a) a d
  | Some p => pick a p (unit s) d
  end.

Definition choice {A} (a : list A) (p : option (list float)) (n : Z)
    : M Z (list A) := λ s,
  if n <? 0 then Raise (ValueError "negative dimensions are not allowed")
  else match reverse a with
       | [] => Raise (ValueError "'a' cannot be empty unless no samples are taken")
       | d :: _ => Ok (draws (Z.to_nat n) (pick_one a p d) s)
       end.

Definition choice1 {A} (a : list A) (p : list float) : M Z A := λ s,
  match reverse a with
  | [] => Raise (ValueError "'a' cannot be empty unless no samples are taken")
  | d :: _ => Ok (pick a p (unit (next s)) d, next s)
  end.

Definition choice_no_replace (a : list nat) (k : Z) : M Z (list nat) := λ s,
  if k <? 0 then Raise (ValueError "negative dimensions are not allowed")
  else if Z.of_nat (length a) <? k
  then Raise (ValueError
         "Cannot take a larger sample than population when 'replace=False'")
  else Ok (take (Z.to_nat k) (rotate (Z.to_nat (bits (next s))) a), next s).

Definition randint (low high n : Z) : M Z (list Z) := λ s,
  if n <? 0 then Raise (ValueError "negative dimensions are not allowed")
  else if high <=? low then Raise (ValueError "low >= high")
  else Ok (draws (Z.to_nat n) (λ s, low + bits s mod (high - low)) s).

Definition gauss (loc scale : float) (s : Z) : float :=
  let x := (loc + scale * (F64.of_Z 4 * unit s - F64.of_Z 2))%f64 in
  if F64.is_finite x then x else F64.zero.

Definition normal (loc scale : float) (n : Z) : M Z (list float) := λ s,
  if n <? 0 then Raise (ValueError "negative dimensions are not allowed")
  else Ok (draws (Z.to_nat n) (gauss loc scale) s).

Fixpoint bernoulli (k : Z) (p : list float) (s : Z) : list Z * Z :=
  match p with
  | [] => ([], s)
  | q :: p' => let s' := next s in
               let '(xs, s'') := bernoulli k p' s' in
               ((if (unit s' <? q)%f64 then k else 0) :: xs, s'')
  end.

Definition binomial (k : Z) (p : list float) : M Z (list Z) := λ s,
  Ok (bernoulli k p s).

Definition random_sample (n : Z) : M Z (list float) := λ s,
  if n <? 0 then Raise (ValueError "negative dimensions are not allowed")
  else Ok (draws (Z.to_nat n) unit s).

Definition rand1 : M Z float := λ s, Ok (unit (next s), next s).

End Lcg.

#[global] Instance lcg_random_state : RandomState Z := {|
  np_seed := λ s, s;
  choice := @Lcg.choice;
  choice1 := @Lcg.choice1;
  choice_no_replace := Lcg.choice_no_replace;
  randint := Lcg.randint;
  normal := Lcg.normal;
  binomial := Lcg.binomial;
  random_sample := Lcg.random_sample;
  rand1 := Lcg.rand1;
|}.

(** The second half of [binary_round_aux]: renormalising the rounded mantissa. *)
Definition round_tail (s : bool) (m e : Z) : float :=
  let '(mrs'', e'') := shr_fexp F64.prec F64.emax m e loc_Exact in
  match shr_m mrs'' with
  | Z0 => S754_zero s
  | Zpos m => if e'' <=? F64.emax - F64.prec then S754_finite s m e'' else S754_infinity s
  | _ => S754_nan
  end.


(** ** The shape of a table with [k] rows *)

Definition applicants_shape (k : nat) (df : Applicants) : Prop :=
  length (id df) = k ∧ length (country_of_origin df) = k
  ∧ length (gender df) = k ∧ length (age df) = k
  ∧ length (education_level df) = k ∧ length (language_proficiency df) = k
  ∧ length (family_size df) = k ∧ length (prior_camp_years df) = k
  ∧ length (persecution_ground df) = k ∧ length (persecution_type df) = k
  ∧ length (nexus_established df) = k ∧ length (state_protection_score df) = k
  ∧ length (internal_relocation_possible df) = k
  ∧ length (reported_trauma df) = k.

Definition scores_shape (k : nat) (sc : Scores) : Prop :=
  length (credibility_score sc) = k ∧ length (risk_score sc) = k
  ∧ length (risk_score_uncapped sc) = k ∧ length (integration_score sc) = k.

Definition oversight_shape (k : nat) (ov : Oversight) : Prop :=
  length (human_reviewed ov) = k ∧ length (human_override ov) = k
  ∧ length (final_decision ov) = k ∧ length (processing_time_days ov) = k.

Definition outcomes_shape (k : nat) (out : Outcomes) : Prop :=
  length (appealed out) = k ∧ length (appeal_outcome out) = k
  ∧ length (bias_flag out) = k.

Definition shape (k : nat) (df : DataFrame) : Prop :=
  applicants_shape k (inputs df) ∧ scores_shape k (scores df)
  ∧ length (AI_decision df) = k ∧ oversight_shape k (oversight df)
  ∧ outcomes_shape k (outcomes df).

(** ** The summary printed before export (lines 246-259) *)

(** [Series.sum()] of a boolean column *)
Definition count_true (col : list bool) : nat :=
  length (filter (λ b, b = true) col).

(** [(col == v).sum()], which is also the entry of [v] in
    [col.value_counts()] *)
Definition value_count `{EqDecision A} (v : A) (col : list A) : nat :=
  count_true ((λ x, bool_decide (x = v)) <$> col).

(** line 255: [df['appealed'].sum()] *)
Definition appeals_filed (df : DataFrame) : nat :=
  count_true (appealed (outcomes df)).

(** line 256: [(df['appeal_outcome'] == 'overturned').sum()] *)
Definition appeals_overturned (df : DataFrame) : nat :=
  value_count overturned (appeal_outcome (outcomes df)).

(** line 259: [((df['reported_trauma']) & (df['credibility_score'] < 0.5)).sum()] *)
Definition trauma_low_credibility (df : DataFrame) : nat :=
  count_true (zip_with (λ (t : bool) c, t && (c <? lit 5 10)%f64)
                (reported_trauma (inputs df)) (credibility_score (scores df))).

(** * Properties *)

(** ** Binary64 arithmetic: rounding never invents a NaN or a sign *)

Section Rounding.
Local Abbreviation prec := F64.prec.
Local Abbreviation emax := F64.emax.

Lemma shr_1_nonneg mrs : 0 ≤ shr_m mrs → 0 ≤ shr_m (shr_1 mrs).
Proof.
  destruct mrs as [m r s]; simpl.
  destruct m as [|[p|p|]|p]; simpl; lia.
Qed.

Lemma iter_pos_invariant {A} (P : A → Prop) (f : A → A) :
  (∀ x, P x → P (f x)) → ∀ p x, P x → P (SpecFloat.iter_pos f p x).
Proof.
  intros Hf. induction p as [p IH|p IH|]; intros x Hx; simpl; auto.
Qed.

Lemma shr_nonneg mrs e n : 0 ≤ shr_m mrs → 0 ≤ shr_m (shr mrs e n).1.
Proof.
  intros Hm. destruct n as [|p|p]; simpl; try done.
  by apply (iter_pos_invariant (λ x, 0 ≤ shr_m x)); [apply shr_1_nonneg|].
Qed.

Lemma shr_fexp_nonneg m e l : 0 ≤ m → 0 ≤ shr_m (shr_fexp prec emax m e l).1.
Proof.
  intros Hm. unfold shr_fexp. apply shr_nonneg.
  by destruct l as [|[]].
Qed.

Lemma round_nearest_even_nonneg m l : 0 ≤ m → 0 ≤ round_nearest_even m l.
Proof.
  intros Hm. destruct l as [|[]]; simpl; try lia.
  destruct (Z.even m); lia.
Qed.

Lemma binary_round_aux_signed s m e l :
  0 ≤ m → signed s (binary_round_aux prec emax s m e l).
Proof.
  intros Hm. unfold binary_round_aux.
  pose proof (shr_fexp_nonneg m e l Hm) as H1.
  destruct (shr_fexp prec emax m e l) as [mrs' e'] eqn:E1. simpl in H1.
  pose proof (round_nearest_even_nonneg (shr_m mrs') (loc_of_shr_record mrs') H1)
    as H2.
  pose proof (shr_fexp_nonneg _ e' loc_Exact H2) as H3.
  destruct (shr_fexp prec emax _ e' loc_Exact) as [mrs'' e''] eqn:E2.
  simpl in H3.
  destruct (shr_m mrs'') as [|p|p]; simpl; [done| |lia].
  by destruct (e'' <=? emax - prec).
Qed.

Lemma binary_round_signed s m e : signed s (binary_round prec emax s m e).
Proof.
  unfold binary_round.
  destruct (shl_align m e _) as [mz ez].
  by apply binary_round_aux_signed.
Qed.

Lemma binary_normalize_pos m e : 0 < m → signed false (binary_normalize prec emax m e false).
Proof. destruct m; try lia. intros _. apply binary_round_signed. Qed.

Lemma binary_normalize_not_nan m e :
  F64.is_nan (binary_normalize prec emax m e false) = false.
Proof.
  destruct m as [|p|p]; simpl; [done|..].
  - pose proof (binary_round_signed false p e) as Hs.
    by destruct (binary_round _ _ _ _ _).
  - pose proof (binary_round_signed true p e) as Hs.
    by destruct (binary_round _ _ _ _ _).
Qed.

Lemma add_not_nan x y :
  F64.is_nan x = false → F64.is_finite y = true → F64.is_nan (x + y)%f64 = false.
Proof.
  destruct x as [sx|sx| |sx mx ex], y as [sy|sy| |sy my ey];
    try done; intros _ _; simpl.
  - by destruct sx, sy.
  - apply binary_normalize_not_nan.
Qed.

Lemma add_nonneg x y :
  F64.nonneg x = true → F64.nonneg y = true → F64.nonneg (x + y)%f64 = true.
Proof.
  destruct x as [sx|[]| |[] mx ex], y as [sy|[]| |[] my ey];
    try done; intros _ _; simpl.
  - by destruct sx, sy.
  - match goal with
    | |- context [binary_round _ _ false ?m ?e] =>
        pose proof (binary_round_signed false m e) as Hs;
        by destruct (binary_round _ _ false m e) as [|[]| |[]]
    end.
Qed.

Lemma mul_nonneg x y :
  F64.is_pos_finite x = true → F64.nonneg y = true →
  F64.nonneg (x * y)%f64 = true.
Proof.
  destruct x as [?|?| |[] mx ex], y as [sy|[]| |[] my ey];
    try done; intros _ _; simpl.
  pose proof (binary_round_aux_signed false (Z.pos (mx * my)) (ex + ey)
                loc_Exact ltac:(lia)) as Hs.
  by destruct (binary_round_aux _ _ _ _ _ _) as [|[]| |[]].
Qed.
End Rounding.

(** ** Binary64 comparisons and clipping *)

Lemma SFcompare_refl x : F64.is_nan x = false → SFcompare x x = Some Eq.
Proof.
  destruct x as [s|s| |s m e]; try done; intros _; simpl.
  - by destruct s.
  - rewrite Z.compare_refl, Pos.compare_cont_refl. by destruct s.
Qed.

Lemma leb_refl x : F64.is_nan x = false → (x <=? x)%f64 = true.
Proof. intros Hx. unfold F64.leb, SFleb. by rewrite SFcompare_refl. Qed.

Lemma ltb_leb x y : (x <? y)%f64 = true → (x <=? y)%f64 = true.
Proof.
  unfold F64.ltb, F64.leb, SFltb, SFleb.
  by destruct (SFcompare x y) as [[]|].
Qed.

Lemma leb_not_nan_l x y : (x <=? y)%f64 = true → F64.is_nan x = false.
Proof. by destruct x. Qed.

Lemma leb_not_nan_r x y : (x <=? y)%f64 = true → F64.is_nan y = false.
Proof. by destruct x, y. Qed.

Lemma nonneg_leb_zero x : F64.nonneg x = true ↔ (F64.zero <=? x)%f64 = true.
Proof. by destruct x as [s|[]| |[] m e]. Qed.

Lemma nonneg_not_nan x : F64.nonneg x = true → F64.is_nan x = false.
Proof. by destruct x. Qed.

Lemma finite_not_nan x : F64.is_finite x = true → F64.is_nan x = false.
Proof. by destruct x. Qed.

Lemma leb_pos_nonneg lo x :
  F64.is_pos_finite lo = true → (lo <=? x)%f64 = true → F64.nonneg x = true.
Proof. by destruct lo as [?|?| |[] m e], x as [?|[]| |[] m' e']. Qed.

Lemma max_not_nan x lo :
  F64.is_nan x = false → F64.is_nan lo = false → F64.is_nan (F64.max x lo) = false.
Proof. intros Hx Hlo. unfold F64.max. rewrite Hx. by destruct (x >? lo)%f64. Qed.

(** [np.clip] of a number that is not a NaN lies between the bounds. *)
Lemma clip_bounds x lo hi :
  F64.is_nan x = false → (lo <=? hi)%f64 = true →
  (lo <=? F64.clip x lo hi)%f64 = true ∧ (F64.clip x lo hi <=? hi)%f64 = true.
Proof.
  intros Hx Hlh.
  pose proof (leb_not_nan_l _ _ Hlh) as Hlo.
  pose proof (leb_not_nan_r _ _ Hlh) as Hhi.
  unfold F64.clip, F64.min.
  rewrite (max_not_nan x lo Hx Hlo).
  unfold F64.max. rewrite Hx. unfold F64.gtb.
  destruct (SFltb lo x) eqn:E1.
  - destruct (x <? hi)%f64 eqn:E2.
    + split; by apply ltb_leb.
    + split; [done|by apply leb_refl].
  - destruct (lo <? hi)%f64 eqn:E2.
    + split; [by apply leb_refl|done].
    + split; [done|by apply leb_refl].
Qed.

Lemma clip_in_unit x : F64.is_nan x = false → F64.in_unit (F64.clip x F64.zero F64.one) = true.
Proof.
  intros Hx. unfold F64.in_unit.
  destruct (clip_bounds x F64.zero F64.one Hx eq_refl) as [-> ->]. done.
Qed.

Lemma in_unit_nonneg x : F64.in_unit x = true → F64.nonneg x = true.
Proof.
  unfold F64.in_unit. intros [H0 _]%andb_prop. by apply nonneg_leb_zero.
Qed.

Lemma unit_interval_nonneg x : unit_interval x = true → F64.nonneg x = true.
Proof.
  unfold unit_interval. intros [H0 _]%andb_prop. by apply nonneg_leb_zero.
Qed.

(** ** Binary64 arithmetic: the size of the review sample

    Rounding is followed through [SpecFloat]'s shift-and-round algorithm to
    evaluate [int(0.10 * n)]. *)

Section ReviewSize.
Local Abbreviation prec := F64.prec.
Local Abbreviation emax := F64.emax.

Lemma digits2_pos_bounds p :
  2 ^ (Z.pos (digits2_pos p) - 1) ≤ Z.pos p < 2 ^ Z.pos (digits2_pos p).
Proof.
  induction p as [p IH|p IH|]; simpl digits2_pos; [| |by compute].
  - rewrite Pos2Z.inj_succ.
    replace (Z.succ (Z.pos (digits2_pos p)) - 1) with (Z.succ (Z.pos (digits2_pos p) - 1)) by lia.
    rewrite !Z.pow_succ_r by lia. lia.
  - rewrite Pos2Z.inj_succ.
    replace (Z.succ (Z.pos (digits2_pos p)) - 1) with (Z.succ (Z.pos (digits2_pos p) - 1)) by lia.
    rewrite !Z.pow_succ_r by lia. lia.
Qed.

Lemma digits2_pos_unique q j :
  2 ^ (j - 1) ≤ Z.pos q < 2 ^ j → Z.pos (digits2_pos q) = j.
Proof.
  intros [Hlo Hhi]. pose proof (digits2_pos_bounds q) as [Hlo' Hhi'].
  set (x := Z.pos (digits2_pos q)) in *.
  assert (0 < x) by (subst x; lia).
  destruct (Z.lt_trichotomy x j) as [Hlt|[Heq|Hgt]]; [|done|].
  - assert (2 ^ x ≤ 2 ^ (j - 1)) by (apply Z.pow_le_mono_r; lia). lia.
  - destruct (decide (j < 0)) as [Hneg|Hpos].
    { rewrite Z.pow_neg_r in Hhi by done. lia. }
    assert (2 ^ j ≤ 2 ^ (x - 1)) by (apply Z.pow_le_mono_r; lia). lia.
Qed.

Lemma shr_1_div2 mrs : 0 ≤ shr_m mrs → shr_m (shr_1 mrs) = shr_m mrs / 2.
Proof.
  destruct mrs as [m r s]; simpl. rewrite <- Z.div2_div.
  destruct m as [|[p|p|]|p]; simpl; try done; lia.
Qed.

Lemma pow2_xI p : 2 ^ Z.pos p~1 = 2 * (2 ^ Z.pos p * 2 ^ Z.pos p).
Proof.
  replace (Z.pos p~1) with (1 + (Z.pos p + Z.pos p)) by lia.
  rewrite !Z.pow_add_r by lia. done.
Qed.

Lemma pow2_xO p : 2 ^ Z.pos p~0 = 2 ^ Z.pos p * 2 ^ Z.pos p.
Proof.
  replace (Z.pos p~0) with (Z.pos p + Z.pos p) by lia.
  by rewrite Z.pow_add_r by lia.
Qed.

Lemma shr_m_iter_pos p mrs :
  0 ≤ shr_m mrs →
  shr_m (SpecFloat.iter_pos shr_1 p mrs) = shr_m mrs / 2 ^ Z.pos p.
Proof.
  revert mrs. induction p as [p IH|p IH|]; intros mrs Hm; simpl SpecFloat.iter_pos.
  - assert (0 < 2 ^ Z.pos p) by (apply Z.pow_pos_nonneg; lia).
    rewrite IH, IH, shr_1_div2, pow2_xI, !Z.div_div; try lia.
    + by apply shr_1_nonneg.
    + apply (iter_pos_invariant (λ x, 0 ≤ shr_m x)); [apply shr_1_nonneg|].
      by apply shr_1_nonneg.
  - assert (0 < 2 ^ Z.pos p) by (apply Z.pow_pos_nonneg; lia).
    rewrite IH, IH, pow2_xO, !Z.div_div; try lia.
    by apply (iter_pos_invariant (λ x, 0 ≤ shr_m x)); [apply shr_1_nonneg|].
  - by apply shr_1_div2.
Qed.

Lemma Zpos_iter_xO p j : Z.pos (Pos.iter xO p j) = Z.pos p * 2 ^ Z.pos j.
Proof.
  induction j as [|j IH] using Pos.peano_ind.
  - simpl. lia.
  - rewrite Pos.iter_succ, Pos2Z.inj_xO, IH, Pos2Z.inj_succ, Z.pow_succ_r by lia. lia.
Qed.

Lemma fexp_normal x : -1021 ≤ x → fexp prec emax x = x - 53.
Proof. intros Hx. unfold fexp, SpecFloat.emin, prec, emax, F64.prec, F64.emax. lia. Qed.

Lemma binary_round_aux_tail s m e l :
  binary_round_aux prec emax s m e l =
  round_tail s (round_nearest_even (shr_m (shr_fexp prec emax m e l).1)
                  (loc_of_shr_record (shr_fexp prec emax m e l).1))
             (shr_fexp prec emax m e l).2.
Proof. unfold binary_round_aux, round_tail. by destruct (shr_fexp prec emax m e l). Qed.

Lemma round_tail_canonical s q e :
  Z.pos (digits2_pos q) = 53 → -1074 ≤ e ≤ 971 →
  round_tail s (Z.pos q) e = S754_finite s q e.
Proof.
  intros Hd He. unfold round_tail, shr_fexp. simpl Zdigits2.
  rewrite Hd, fexp_normal by lia.
  replace (53 + e - 53 - e) with 0 by lia. simpl.
  change (emax - prec) with 971.
  by rewrite (proj2 (Z.leb_le e 971)) by lia.
Qed.

Lemma round_tail_carry s e :
  -1074 ≤ e → e + 1 ≤ 971 →
  round_tail s (2 ^ 53) e = S754_finite s (2 ^ 52) (e + 1).
Proof.
  intros Hlo Hhi. unfold round_tail, shr_fexp.
  change (Zdigits2 (2 ^ 53)) with 54. rewrite fexp_normal by lia.
  replace (54 + e - 53 - e) with 1 by lia. simpl.
  change (emax - prec) with 971.
  by rewrite (proj2 (Z.leb_le (e + 1) 971)) by lia.
Qed.

Lemma round_aux_canonical s m e :
  Z.pos (digits2_pos m) = 53 → -1074 ≤ e ≤ 971 →
  binary_round_aux prec emax s (Z.pos m) e loc_Exact = S754_finite s m e.
Proof.
  intros Hd He. rewrite binary_round_aux_tail.
  assert (shr_fexp prec emax (Z.pos m) e loc_Exact
          = (Build_shr_record (Z.pos m) false false, e)) as ->.
  { unfold shr_fexp. simpl Zdigits2. rewrite Hd, fexp_normal by lia.
    by replace (53 + e - 53 - e) with 0 by lia. }
  simpl. by apply round_tail_canonical.
Qed.

Lemma round_nearest_even_cases m l :
  round_nearest_even m l = m ∨ round_nearest_even m l = m + 1.
Proof. destruct l as [|[]]; simpl; auto. destruct (Z.even m); auto. Qed.

(** Rounding an exact positive mantissa that has more than 53 digits. *)
Lemma round_aux_shape s P e :
  let k := Z.pos (digits2_pos P) - 53 in
  0 < k → -1074 ≤ e + k → e + k + 1 ≤ 971 →
  ∃ M e' R,
    binary_round_aux prec emax s (Z.pos P) e loc_Exact = S754_finite s M e'
    ∧ (R = Z.pos P / 2 ^ k ∨ R = Z.pos P / 2 ^ k + 1)
    ∧ e + k ≤ e' ≤ e + k + 1
    ∧ Z.pos M * 2 ^ (e' - (e + k)) = R.
Proof.
  intros k Hk Hlo Hhi.
  pose proof (digits2_pos_bounds P) as [HPlo HPhi].
  set (D := Z.pos (digits2_pos P)) in *.
  assert (0 < 2 ^ k) as Hpk by (apply Z.pow_pos_nonneg; lia).
  assert (2 ^ 52 ≤ Z.pos P / 2 ^ k < 2 ^ 53) as Hmm.
  { replace (D - 1) with (k + 52) in HPlo by lia.
    replace D with (k + 53) in HPhi by lia.
    rewrite Z.pow_add_r in HPlo, HPhi by lia. split.
    - apply Z.div_le_lower_bound; lia.
    - apply Z.div_lt_upper_bound; lia. }
  rewrite binary_round_aux_tail.
  assert (shr_fexp prec emax (Z.pos P) e loc_Exact
          = (SpecFloat.iter_pos shr_1 (Z.to_pos k) (Build_shr_record (Z.pos P) false false),
             e + k)) as ->.
  { unfold shr_fexp. simpl Zdigits2. fold D. rewrite fexp_normal by lia.
    replace (D + e - 53 - e) with k by lia.
    destruct k as [|kp|kp] eqn:Ek; try lia. done. }
  cbn [fst snd].
  set (mrs' := SpecFloat.iter_pos shr_1 (Z.to_pos k) _).
  assert (shr_m mrs' = Z.pos P / 2 ^ k) as Hm'.
  { unfold mrs'. rewrite shr_m_iter_pos by (simpl; lia).
    simpl. by rewrite Z2Pos.id by lia. }
  assert (∀ q, 2 ^ 52 ≤ Z.pos q < 2 ^ 53 →
            ∃ M e' R, round_tail s (Z.pos q) (e + k) = S754_finite s M e'
              ∧ R = Z.pos q ∧ e + k ≤ e' ≤ e + k + 1
              ∧ Z.pos M * 2 ^ (e' - (e + k)) = R) as Hcanon.
  { intros q Hq. exists q, (e + k), (Z.pos q).
    rewrite round_tail_canonical; [|by apply digits2_pos_unique|lia].
    split_and!; try done; try lia.
    replace (e + k - (e + k)) with 0 by lia. simpl. lia. }
  destruct (round_nearest_even_cases (shr_m mrs') (loc_of_shr_record mrs'))
    as [HR|HR]; rewrite HR, Hm'.
  - destruct (Z.pos P / 2 ^ k) as [|q|q] eqn:Eq; try lia.
    destruct (Hcanon q Hmm) as (M & e' & R & E & -> & He' & HM).
    exists M, e', (Z.pos q). split_and!; auto; lia.
  - destruct (decide (Z.pos P / 2 ^ k + 1 = 2 ^ 53)) as [Hc|Hc].
    + rewrite Hc, round_tail_carry by lia.
      exists (2 ^ 52)%positive, (e + k + 1), (2 ^ 53).
      split; [done|]. split; [right; lia|]. split; [lia|].
      replace (e + k + 1 - (e + k)) with 1 by lia. done.
    + destruct (Z.pos P / 2 ^ k + 1) as [|q|q] eqn:Eq; try lia.
      destruct (Hcanon q) as (M & e' & R & E & -> & He' & HM); [lia|].
      exists M, e', (Z.pos q). split_and!; auto; lia.
Qed.

Lemma of_Z_pos p :
  Z.pos (digits2_pos p) ≤ 53 →
  ∃ m, F64.of_Z (Z.pos p) = S754_finite false m (Z.pos (digits2_pos p) - 53)
       ∧ Z.pos m = Z.pos p * 2 ^ (53 - Z.pos (digits2_pos p))
       ∧ Z.pos (digits2_pos m) = 53.
Proof.
  intros Hd. pose proof (digits2_pos_bounds p) as [Hlo Hhi].
  set (d := Z.pos (digits2_pos p)) in *.
  assert (0 < d) by (subst d; lia).
  unfold F64.of_Z, binary_normalize, binary_round.
  fold d. rewrite fexp_normal by lia. unfold shl_align.
  destruct (d + 0 - 53 - 0) as [|j|j] eqn:Ej; try lia.
  - exists p. replace (53 - d) with 0 by lia. replace (d - 53) with 0 by lia.
    assert (Z.pos (digits2_pos p) = 53) as Hd53 by (fold d; lia).
    rewrite round_aux_canonical by (done || lia).
    split_and!; [done|simpl; lia|done].
  - assert (Z.pos (digits2_pos (Pos.iter xO p j)) = 53) as Hd53.
    { apply digits2_pos_unique. rewrite Zpos_iter_xO.
      replace (Z.pos j) with (53 - d) by lia.
      assert (0 < 2 ^ (53 - d)) by (apply Z.pow_pos_nonneg; lia).
      replace (2 ^ (53 - 1)) with (2 ^ (d - 1) * 2 ^ (53 - d))
        by (rewrite <- Z.pow_add_r by lia; f_equal; lia).
      replace (2 ^ 53) with (2 ^ d * 2 ^ (53 - d))
        by (rewrite <- Z.pow_add_r by lia; f_equal; lia).
      nia. }
    exists (Pos.iter xO p j).
    replace (d + 0 - 53) with (d - 53) by lia.
    rewrite round_aux_canonical by (done || lia).
    split_and!; [done| |done].
    rewrite Zpos_iter_xO. f_equal. f_equal. lia.
Qed.

Lemma shiftl_neg a e : e ≤ 0 → Z.shiftl a e = a / 2 ^ (- e).
Proof. intros He. by rewrite Z.shiftl_div_pow2 by lia. Qed.

(** [int(0.10 * n)] is [n // 10] for every table size below [2^50]. *)
Lemma review_size n :
  0 ≤ n < 2 ^ 50 →
  F64.to_int (lit 10 100 * F64.of_Z n)%f64 = Some (n / 10).
Proof.
  intros [Hn0 Hn].
  change (lit 10 100) with (S754_finite false 7205759403792794 (-56)).
  destruct n as [|p|p]; [done| |lia].
  pose proof (digits2_pos_bounds p) as [Hplo Hphi].
  set (d := Z.pos (digits2_pos p)) in *.
  assert (0 < d) as Hd0 by (subst d; lia).
  assert (d ≤ 50) as Hd50.
  { apply Z.nlt_ge. intros Hgt.
    assert (2 ^ 50 ≤ 2 ^ (d - 1)) by (apply Z.pow_le_mono_r; lia). lia. }
  destruct (of_Z_pos p) as (m & -> & Hm & Hdm); [fold d; lia|]. fold d in Hm.
  unfold F64.mul, SFmul. cbn [xorb].
  set (c := 7205759403792794%positive).
  set (a := 2 ^ (53 - d)) in *.
  assert (0 < a) as Ha by (apply Z.pow_pos_nonneg; lia).
  pose proof (digits2_pos_bounds m) as [Hmlo Hmhi]. rewrite Hdm in Hmlo, Hmhi.
  pose proof (digits2_pos_bounds (c * m)) as [HPlo HPhi].
  set (D := Z.pos (digits2_pos (c * m))) in *.
  assert (2 ^ 104 ≤ Z.pos (c * m) < 2 ^ 106) as HP.
  { rewrite Pos2Z.inj_mul. change (2 ^ 104) with (2 ^ 52 * 2 ^ 52).
    change (2 ^ 106) with (2 ^ 53 * 2 ^ 53).
    assert (2 ^ 52 ≤ Z.pos c < 2 ^ 53) by (by compute).
    change (53 - 1) with 52 in Hmlo. nia. }
  assert (105 ≤ D ≤ 106) as HD.
  { split.
    - apply Z.nlt_ge. intros Hlt.
      assert (2 ^ D ≤ 2 ^ 104) by (apply Z.pow_le_mono_r; lia). lia.
    - apply Z.nlt_ge. intros Hgt.
      assert (2 ^ 106 ≤ 2 ^ (D - 1)) by (apply Z.pow_le_mono_r; lia). lia. }
  fold d.
  destruct (round_aux_shape false (c * m) (-56 + (d - 53)))
    as (M & e' & R & -> & HR & He' & HM); fold D; [lia..|].
  fold D in HR, He', HM.
  set (k := D - 53) in *. set (e := -56 + (d - 53)) in *.
  unfold F64.to_int. cbn [cond_Zopp]. f_equal.
  rewrite shiftl_neg by lia.
  set (t := - (e + k)).
  assert (6 ≤ t) by (unfold t, e, k; lia).
  assert (0 < 2 ^ (e' - (e + k))) as Hj by (apply Z.pow_pos_nonneg; lia).
  assert (Z.pos M / 2 ^ (- e') = R / 2 ^ t) as ->.
  { rewrite <- HM.
    replace (2 ^ t) with (2 ^ (- e') * 2 ^ (e' - (e + k)))
      by (rewrite <- Z.pow_add_r by lia; f_equal; unfold t; lia).
    rewrite Z.div_mul_cancel_r; [done| |lia].
    apply Z.pow_nonzero; lia. }
  set (K := 2 ^ k) in *. set (T := 2 ^ t).
  assert (0 < K) as HK by (apply Z.pow_pos_nonneg; unfold k; lia).
  assert (64 ≤ T) as HT.
  { change 64 with (2 ^ 6). apply Z.pow_le_mono_r; lia. }
  assert (K * T = 2 ^ 56 * a) as HKT.
  { unfold K, T, a. rewrite <- !Z.pow_add_r by (unfold k; lia).
    f_equal. unfold t, e, k. lia. }
  assert (Z.pos (c * m) = Z.pos c * (Z.pos p * a)) as HPeq
    by (rewrite Pos2Z.inj_mul, Hm; done).
  set (n := Z.pos p) in *. set (q := n / 10).
  assert (10 * q ≤ n < 10 * q + 10) as Hq.
  { unfold q. pose proof (Z.div_mod n 10 ltac:(lia)).
    pose proof (Z.mod_pos_bound n 10 ltac:(lia)). lia. }
  assert (Z.pos c = 7205759403792794) as Hc by done.
  set (A := Z.pos (c * m) / K) in *.
  assert (q * T ≤ A) as HA1.
  { apply Z.div_le_lower_bound; [done|]. rewrite HPeq, Hc. nia. }
  assert (A + 2 ≤ (q + 1) * T) as HA2.
  { assert (A < (q + 1) * T - 1); [|lia].
    apply Z.div_lt_upper_bound; [done|]. rewrite HPeq, Hc.
    assert (K * 64 ≤ 2 ^ 56 * a) by nia.
    change (2 ^ 56) with 72057594037927936 in *.
    change (2 ^ 50) with 1125899906842624 in *. nia. }
  symmetry. apply Z.div_unique with (r := R - q * T); lia.
Qed.
End ReviewSize.

(** ** The generator monad *)

Lemma bind_Ok {G A B} (c : M G A) (f : A → M G B) g b g' :
  (c ≫= f) g = Ok (b, g') ↔ ∃ a g1, c g = Ok (a, g1) ∧ f a g1 = Ok (b, g').
Proof.
  unfold mbind, M_bind. split.
  - destruct (c g) as [[a g1]|e]; [|done]. intros Hf. by exists a, g1.
  - intros (a & g1 & -> & Hf). done.
Qed.

Lemma bind_Raise {G A B} (c : M G A) (f : A → M G B) g e :
  c g = Raise e → (c ≫= f) g = Raise e.
Proof. unfold mbind, M_bind. by intros ->. Qed.

Lemma ret_Ok {G A} (a b : A) (g g' : G) :
  mret (M := M G) a g = Ok (b, g') ↔ a = b ∧ g = g'.
Proof.
  change (Ok (a, g) = Ok (b, g') ↔ a = b ∧ g = g').
  split; [intros ?; by simplify_eq|intros [-> ->]; reflexivity].
Qed.

(** Peels the next statement off a computation known to succeed. *)
Tactic Notation "step" hyp(H) ident(x) ident(g) ident(E) :=
  apply bind_Ok in H; destruct H as (x & g & E & H).

Lemma for_each_Ok {G A B} (f : A → M G B) xs g ys g' :
  for_each f xs g = Ok (ys, g') →
  Forall2 (λ x y, ∃ g1 g2, f x g1 = Ok (y, g2)) xs ys.
Proof.
  revert g ys g'. induction xs as [|x xs IH]; intros g ys g' Hrun; simpl in Hrun.
  - apply ret_Ok in Hrun as [<- _]. constructor.
  - step Hrun y g1 Ey. step Hrun ys' g2 Eys.
    apply ret_Ok in Hrun as [<- _].
    constructor; [by exists g, g1|by eapply IH].
Qed.

Lemma for_each_total {G A B} (f : A → M G B) xs g :
  (∀ x g, x ∈ xs → ∃ y g', f x g = Ok (y, g')) →
  ∃ ys g', for_each f xs g = Ok (ys, g') ∧ length ys = length xs.
Proof.
  revert g. induction xs as [|x xs IH]; intros g Hf; simpl.
  - by exists [], g.
  - destruct (Hf x g) as (y & g1 & Ey); [by left|].
    destruct (IH g1) as (ys & g2 & Eys & Hlen).
    { intros x' g0 Hx'. apply Hf. by right. }
    exists (y :: ys), g2. split; [|simpl; by rewrite Hlen].
    apply bind_Ok. exists y, g1. split; [done|].
    apply bind_Ok. exists ys, g2. split; [done|]. by apply ret_Ok.
Qed.

(** ** Element-wise operations *)

Lemma lookup_zip_with3 {A B C D} (f : A → B → C → D) xs ys zs i d :
  zip_with3 f xs ys zs !! i = Some d ↔
  ∃ x y z, xs !! i = Some x ∧ ys !! i = Some y ∧ zs !! i = Some z
           ∧ d = f x y z.
Proof.
  unfold zip_with3. rewrite lookup_zip_with_Some. split.
  - intros (h & z & -> & (x & y & -> & Hx & Hy)%lookup_zip_with_Some & Hz).
    by exists x, y, z.
  - intros (x & y & z & Hx & Hy & Hz & ->).
    exists (f x y), z. split_and!; [done| |done].
    apply lookup_zip_with_Some. by exists x, y.
Qed.

Lemma lookup_zip_with4 {A B C D E} (f : A → B → C → D → E) xs ys zs ws i d :
  zip_with4 f xs ys zs ws !! i = Some d ↔
  ∃ x y z w, xs !! i = Some x ∧ ys !! i = Some y ∧ zs !! i = Some z
             ∧ ws !! i = Some w ∧ d = f x y z w.
Proof.
  unfold zip_with4. rewrite lookup_zip_with_Some. split.
  - intros (h & w & -> & (x & y & z & Hx & Hy & Hz & ->)%lookup_zip_with3 & Hw).
    by exists x, y, z, w.
  - intros (x & y & z & w & Hx & Hy & Hz & Hw & ->).
    exists (f x y z), w. split_and!; [done| |done].
    apply lookup_zip_with3. by exists x, y, z.
Qed.

Lemma length_zip_with3 {A B C D} (f : A → B → C → D) xs ys zs n :
  length xs = n → length ys = n → length zs = n →
  length (zip_with3 f xs ys zs) = n.
Proof.
  intros Hx Hy Hz. unfold zip_with3. rewrite !length_zip_with. lia.
Qed.

Lemma length_zip_with4 {A B C D E} (f : A → B → C → D → E) xs ys zs ws n :
  length xs = n → length ys = n → length zs = n → length ws = n →
  length (zip_with4 f xs ys zs ws) = n.
Proof.
  intros Hx Hy Hz Hw. unfold zip_with4.
  rewrite length_zip_with, (length_zip_with3 _ _ _ _ n); lia.
Qed.

(** ** Rows and columns *)

Lemma row_at_Some df i r :
  row_at df i = Some r →
  id (inputs df) !! i = Some (Rec.id r)
  ∧ country_of_origin (inputs df) !! i = Some (Rec.country_of_origin r)
  ∧ gender (inputs df) !! i = Some (Rec.gender r)
  ∧ age (inputs df) !! i = Some (Rec.age r)
  ∧ education_level (inputs df) !! i = Some (Rec.education_level r)
  ∧ language_proficiency (inputs df) !! i = Some (Rec.language_proficiency r)
  ∧ persecution_type (inputs df) !! i = Some (Rec.persecution_type r)
  ∧ nexus_established (inputs df) !! i = Some (Rec.nexus_established r)
  ∧ state_protection_score (inputs df) !! i = Some (Rec.state_protection_score r)
  ∧ reported_trauma (inputs df) !! i = Some (Rec.reported_trauma r)
  ∧ credibility_score (scores df) !! i = Some (Rec.credibility_score r)
  ∧ risk_score (scores df) !! i = Some (Rec.risk_score r)
  ∧ risk_score_uncapped (scores df) !! i = Some (Rec.risk_score_uncapped r)
  ∧ integration_score (scores df) !! i = Some (Rec.integration_score r)
  ∧ AI_decision df !! i = Some (Rec.AI_decision r)
  ∧ human_reviewed (oversight df) !! i = Some (Rec.human_reviewed r)
  ∧ human_override (oversight df) !! i = Some (Rec.human_override r)
  ∧ final_decision (oversight df) !! i = Some (Rec.final_decision r)
  ∧ appealed (outcomes df) !! i = Some (Rec.appealed r)
  ∧ appeal_outcome (outcomes df) !! i = Some (Rec.appeal_outcome r)
  ∧ bias_flag (outcomes df) !! i = Some (Rec.bias_flag r).
Proof.
  unfold row_at. intros Hr.
  repeat (apply bind_Some in Hr as (? & ? & Hr)).
  injection Hr as <-. simpl. split_and!; assumption.
Qed.

(** Names the column entries of the row [r] stored at position [i]. *)
Ltac row_lookups Hr :=
  apply row_at_Some in Hr;
  destruct Hr as (Hid & Hcountry & Hgender & Hage & Hedu & Hlang & Hptype
                  & Hnexus & Hsp & Htrauma & Hcred & Hrisk & Hraw & Hinteg
                  & Hai & Hreviewed & Hoverride & Hfinal & Happealed
                  & Houtcome & Hbias).

Lemma elem_of_rows df r :
  r ∈ rows df ↔ ∃ i, row_at df i = Some r.
Proof.
  unfold rows. rewrite list_elem_of_omap. split.
  - intros (i & _ & Hr). by exists i.
  - intros (i & Hr). exists i. split; [|done].
    apply elem_of_seq. split; [lia|]. simpl.
    pose proof Hr as Hr'. row_lookups Hr'.
    by apply lookup_lt_Some in Hid.
Qed.

Section Generate.
Context {G : Type} `{RandomState G}.

Lemma generate_Ok n g df g' :
  generate n g = Ok (df, g') →
  ∃ g1 g2 g3,
    part1 n g = Ok (inputs df, g1)
    ∧ part2 n (inputs df) g1 = Ok (scores df, g2)
    ∧ AI_decision df = part3 (inputs df) (scores df)
    ∧ part4 n (inputs df) (AI_decision df) g2 = Ok (oversight df, g3)
    ∧ part5 n (inputs df) (scores df) (oversight df) g3 = Ok (outcomes df, g').
Proof.
  unfold generate. intros Hrun.
  step Hrun inp g1 E1. step Hrun sc g2 E2.
  step Hrun ov g3 E4. step Hrun out g4 E5.
  apply ret_Ok in Hrun as [<- <-]. cbn [inputs scores AI_decision oversight outcomes].
  exists g1, g2, g3. split_and!; first [assumption|reflexivity].
Qed.

(** *** PART 3 *)

Lemma part3_lookup df sc i d :
  part3 df sc !! i = Some d →
  ∃ risk cred nexus sp,
    risk_score sc !! i = Some risk
    ∧ credibility_score sc !! i = Some cred
    ∧ nexus_established df !! i = Some nexus
    ∧ state_protection_score df !! i = Some sp
    ∧ d = decide_of (approve_score_of risk cred nexus sp) cred nexus.
Proof.
  unfold part3.
  intros (s & cred & nx & Hs & Hcred & Hnx & ->)%lookup_zip_with3.
  apply lookup_zip_with4 in Hs
    as (risk & cred' & nx' & sp & Hrisk & Hcred' & Hnx' & Hsp & ->).
  exists risk, cred, nx, sp. split_and!; try done. congruence.
Qed.

Lemma row_AI_decision n g df g' r :
  generate n g = Ok (df, g') → r ∈ rows df →
  Rec.AI_decision r =
    decide_of (approve_score_of (Rec.risk_score r) (Rec.credibility_score r)
                 (Rec.nexus_established r) (Rec.state_protection_score r))
              (Rec.credibility_score r) (Rec.nexus_established r).
Proof.
  intros Hrun [i Hr]%elem_of_rows.
  apply generate_Ok in Hrun as (g1 & g2 & g3 & _ & _ & E3 & _).
  row_lookups Hr. rewrite E3 in Hai.
  apply part3_lookup in Hai as (risk & cred & nx & sp & ? & ? & ? & ? & ->).
  congruence.
Qed.

End Generate.

(** ** The generator's guarantees, read backwards

    When a call is known to have returned, its result has the shape NumPy
    promises. *)

Section Guarantees.
Context {G : Type} `{RandomStateSpec G}.

Lemma choice_Ok {A} (a : list A) p n g xs g' :
  choice a p n g = Ok (xs, g') → a ≠ [] → valid_p a p = true →
  0 ≤ n ∧ length xs = Z.to_nat n ∧ ∀ x, x ∈ xs → x ∈ a.
Proof.
  intros E Ha Hp. destruct (decide (n < 0)) as [Hn|Hn].
  { by rewrite choice_negative in E. }
  destruct (choice_spec A a p n g) as (xs' & g'' & E' & Hlen & Hin);
    [lia|done|done|].
  rewrite E in E'. simplify_eq. split_and!; [lia|done|done].
Qed.

Lemma choice1_Ok {A} (a : list A) p g x g' :
  choice1 a p g = Ok (x, g') → a ≠ [] → valid_p a (Some p) = true → x ∈ a.
Proof.
  intros E Ha Hp.
  destruct (choice1_spec A a p g) as (x' & g'' & E' & Hin); [done..|].
  rewrite E in E'. by simplify_eq.
Qed.

Lemma choice_no_replace_Ok (a : list nat) k g xs g' :
  choice_no_replace a k g = Ok (xs, g') → NoDup a →
  0 ≤ k ≤ Z.of_nat (length a)
  ∧ length xs = Z.to_nat k ∧ NoDup xs ∧ ∀ x, x ∈ xs → x ∈ a.
Proof.
  intros E Ha. destruct (decide (k < 0)) as [Hk|Hk].
  { by rewrite choice_no_replace_negative in E. }
  destruct (decide (Z.of_nat (length a) < k)) as [Hk'|Hk'].
  { by rewrite choice_no_replace_large in E. }
  destruct (choice_no_replace_spec a k g) as (xs' & g'' & E' & Hlen & Hnd & Hin);
    [lia|done|].
  rewrite E in E'. simplify_eq. split_and!; [lia|lia|done..].
Qed.

Lemma randint_Ok low high n g xs g' :
  randint low high n g = Ok (xs, g') → 0 ≤ n → low < high →
  length xs = Z.to_nat n ∧ ∀ x, x ∈ xs → low ≤ x < high.
Proof.
  intros E Hn Hlh.
  destruct (randint_spec low high n g) as (xs' & g'' & E' & Hlen & Hin);
    [done..|].
  rewrite E in E'. by simplify_eq.
Qed.

Lemma normal_Ok loc scale n g xs g' :
  normal loc scale n g = Ok (xs, g') → 0 ≤ n →
  F64.is_finite loc = true → F64.is_finite scale = true →
  (F64.zero <=? scale)%f64 = true →
  length xs = Z.to_nat n ∧ ∀ x, x ∈ xs → F64.is_finite x = true.
Proof.
  intros E Hn Hloc Hscale Hpos.
  destruct (normal_spec loc scale n g) as (xs' & g'' & E' & Hlen & Hin);
    [done..|].
  rewrite E in E'. by simplify_eq.
Qed.

Lemma binomial_Ok k p g xs g' :
  binomial k p g = Ok (xs, g') → 0 ≤ k →
  (∀ x, x ∈ p → F64.in_unit x = true) →
  length xs = length p ∧ ∀ x, x ∈ xs → 0 ≤ x ≤ k.
Proof.
  intros E Hk Hp.
  destruct (binomial_spec k p g) as (xs' & g'' & E' & Hlen & Hin); [done..|].
  rewrite E in E'. by simplify_eq.
Qed.

Lemma random_sample_Ok n g xs g' :
  random_sample n g = Ok (xs, g') → 0 ≤ n →
  length xs = Z.to_nat n ∧ ∀ x, x ∈ xs → unit_interval x = true.
Proof.
  intros E Hn.
  destruct (random_sample_spec n g) as (xs' & g'' & E' & Hlen & Hin); [done|].
  rewrite E in E'. by simplify_eq.
Qed.

Lemma rand1_Ok g x g' : rand1 g = Ok (x, g') → unit_interval x = true.
Proof.
  intros E. destruct (rand1_spec g) as (x' & g'' & E' & Hin).
  rewrite E in E'. by simplify_eq.
Qed.
End Guarantees.

(** ** PART 1 *)

Lemma trauma_rate_in_unit c p :
  F64.in_unit (trauma_base_ptype p (trauma_base_country c)) = true.
Proof. destruct c, p; vm_compute; reflexivity. Qed.

Lemma trauma_base_lookup country ptype i x :
  trauma_base country ptype !! i = Some x ↔
  ∃ c p, country !! i = Some c ∧ ptype !! i = Some p
         ∧ x = trauma_base_ptype p (trauma_base_country c).
Proof.
  unfold trauma_base. rewrite lookup_zip_with_Some. split.
  - intros (p & tb & -> & Hp & Htb).
    rewrite list_lookup_fmap in Htb.
    destruct (country !! i) as [c|] eqn:Ec; [|done].
    simpl in Htb. injection Htb as <-. by exists c, p.
  - intros (c & p & Hc & Hp & ->).
    exists p, (trauma_base_country c). split_and!; [done..|].
    by rewrite list_lookup_fmap, Hc.
Qed.

Section Part1.
Context {G : Type} `{RandomState G}.

(** The call that draws the trauma flags, and its argument. *)
Lemma part1_trauma n g df g' :
  part1 n g = Ok (df, g') →
  ∃ draws g1 g2,
    binomial 1 (trauma_base (country_of_origin df) (persecution_type df)) g1
    = Ok (draws, g2)
    ∧ reported_trauma df = (λ k, bool_decide (k ≠ 0)) <$> draws.
Proof.
  unfold part1. intros Hrun.
  step Hrun c_country g1 E1. step Hrun c_gender g2 E2.
  step Hrun c_age g3 E3. step Hrun c_edu g4 E4. step Hrun c_lang g5 E5.
  step Hrun c_fam g6 E6. step Hrun c_camp g7 E7. step Hrun c_ground g8 E8.
  step Hrun c_ptype g9 E9. step Hrun c_nexus g10 E10. step Hrun sp g11 E11.
  step Hrun c_reloc g12 E12. step Hrun trauma g13 E13.
  apply ret_Ok in Hrun as [<- <-]. simpl.
  by exists trauma, g12, g13.
Qed.
End Part1.

Lemma clip_floor_in_unit lo x :
  F64.is_pos_finite lo = true → (lo <=? F64.one)%f64 = true →
  F64.is_nan x = false → F64.in_unit (F64.clip x lo F64.one) = true.
Proof.
  intros Hlo Hle Hx. destruct (clip_bounds x lo F64.one Hx Hle) as [H1 H2].
  unfold F64.in_unit. rewrite H2, andb_true_r.
  apply nonneg_leb_zero. by eapply leb_pos_nonneg.
Qed.

Section Part1Shape.
Context {G : Type} `{RandomStateSpec G}.

Lemma part1_Ok n g df g' :
  part1 n g = Ok (df, g') →
  0 ≤ n ∧ applicants_shape (Z.to_nat n) df
  ∧ (∀ x, x ∈ age df → 18 ≤ x < 65)
  ∧ (∀ x, x ∈ state_protection_score df → F64.in_unit x = true).
Proof.
  unfold part1. intros Hrun.
  step Hrun c_country g1 E1. step Hrun c_gender g2 E2.
  step Hrun c_age g3 E3. step Hrun c_edu g4 E4. step Hrun c_lang g5 E5.
  step Hrun c_fam g6 E6. step Hrun c_camp g7 E7. step Hrun c_ground g8 E8.
  step Hrun c_ptype g9 E9. step Hrun c_nexus g10 E10. step Hrun sp g11 E11.
  step Hrun c_reloc g12 E12. step Hrun trauma g13 E13.
  apply ret_Ok in Hrun as [<- <-]. unfold applicants_shape. simpl.
  apply choice_Ok in E1 as (Hn & L1 & _); [|done..].
  apply choice_Ok in E2 as (_ & L2 & _); [|done..].
  apply randint_Ok in E3 as (L3 & Hage); [|done..].
  apply choice_Ok in E4 as (_ & L4 & _); [|done..].
  apply choice_Ok in E5 as (_ & L5 & _); [|done..].
  apply randint_Ok in E6 as (L6 & _); [|done..].
  apply randint_Ok in E7 as (L7 & _); [|done..].
  apply choice_Ok in E8 as (_ & L8 & _); [|done..].
  apply choice_Ok in E9 as (_ & L9 & _); [|done..].
  apply choice_Ok in E10 as (_ & L10 & _); [|done..].
  apply normal_Ok in E11 as (L11 & Hsp); [|done..].
  apply choice_Ok in E12 as (_ & L12 & _); [|done..].
  apply binomial_Ok in E13 as (L13 & _); [|done|]; last first.
  { intros x (i & Hx)%list_elem_of_lookup.
    apply trauma_base_lookup in Hx as (c & p & _ & _ & ->).
    apply trauma_rate_in_unit. }
  assert (length (trauma_base c_country c_ptype) = Z.to_nat n) as L14.
  { unfold trauma_base. rewrite length_zip_with, length_fmap. lia. }
  split; [done|]. split.
  - unfold range. rewrite length_seqZ, !length_fmap.
    split_and!; try done; lia.
  - split; [done|].
    intros x (y & -> & Hy)%list_elem_of_fmap.
    apply clip_floor_in_unit; [done..|].
    apply finite_not_nan. by apply Hsp.
Qed.
End Part1Shape.

(** ** PART 2 *)

Lemma language_map_finite l : F64.is_finite (language_map l) = true.
Proof. by destruct l. Qed.

Lemma edu_map_finite e : F64.is_finite (edu_map e) = true.
Proof. by destruct e. Qed.

Lemma trauma_penalty_finite t : F64.is_finite (trauma_penalty_of t) = true.
Proof. by destruct t. Qed.

Lemma risk_means_finite c : F64.is_finite (risk_means c) = true.
Proof. by destruct c. Qed.

Lemma ptype_map_finite p : F64.is_finite (ptype_map p) = true.
Proof. by destruct p. Qed.

Lemma gender_map_finite g : F64.is_finite (gender_map g) = true.
Proof. by destruct g. Qed.

Lemma credibility_in_unit b l e t :
  F64.is_finite b = true →
  F64.in_unit (credibility_of b (language_map l) (edu_map e) (trauma_penalty_of t))
  = true.
Proof.
  intros Hb. unfold credibility_of. apply clip_in_unit.
  apply add_not_nan; [|apply trauma_penalty_finite].
  apply add_not_nan; [|apply edu_map_finite].
  apply add_not_nan; [|apply language_map_finite].
  by apply finite_not_nan.
Qed.

Lemma raw_risk_not_nan c p g noise :
  F64.is_finite noise = true →
  F64.is_nan (raw_risk_of (risk_means c) (ptype_map p) (gender_map g) noise)
  = false.
Proof.
  intros Hn. unfold raw_risk_of.
  apply add_not_nan; [|done].
  apply add_not_nan; [|apply gender_map_finite].
  apply add_not_nan; [|apply ptype_map_finite].
  apply finite_not_nan, risk_means_finite.
Qed.

Lemma age_term_nonneg a :
  18 ≤ a < 65 →
  F64.nonneg (lit 2 10 * (F64.one - F64.of_Z (Z.abs (a - 35)) / F64.of_Z 35))%f64
  = true.
Proof.
  intros Ha.
  assert (forallb (λ a, F64.nonneg
            (lit 2 10 * (F64.one - F64.of_Z (Z.abs (a - 35)) / F64.of_Z 35))%f64)
            (seqZ 18 47) = true) as Hall by (vm_compute; reflexivity).
  rewrite forallb_forall in Hall. apply Hall.
  apply list_elem_of_In, elem_of_seqZ. lia.
Qed.

Lemma integration_in_unit c a u :
  F64.in_unit c = true → 18 ≤ a < 65 → unit_interval u = true →
  F64.in_unit (integration_of c a u) = true.
Proof.
  intros Hc Ha Hu. unfold integration_of.
  apply clip_in_unit, nonneg_not_nan.
  apply add_nonneg; [apply add_nonneg|].
  - apply mul_nonneg; [done|by apply in_unit_nonneg].
  - by apply age_term_nonneg.
  - apply mul_nonneg; [done|by apply unit_interval_nonneg].
Qed.

Section Part2.
Context {G : Type} `{RandomState G}.

(** The score columns in terms of the three draws of PART 2. *)
Lemma part2_columns n df g sc g' :
  part2 n df g = Ok (sc, g') →
  ∃ base_cred noise u g1 g2,
    normal (lit 65 100) (lit 15 100) n g = Ok (base_cred, g1)
    ∧ normal F64.zero (lit 5 100) n g1 = Ok (noise, g2)
    ∧ random_sample n g2 = Ok (u, g')
    ∧ credibility_score sc =
        zip_with4 credibility_of base_cred
          (language_map <$> language_proficiency df)
          (edu_map <$> education_level df)
          (trauma_penalty_of <$> reported_trauma df)
    ∧ risk_score_uncapped sc =
        zip_with4 raw_risk_of (risk_means <$> country_of_origin df)
          (ptype_map <$> persecution_type df) (gender_map <$> gender df) noise
    ∧ risk_score sc =
        (λ x, F64.clip x F64.zero F64.one) <$> risk_score_uncapped sc
    ∧ integration_score sc =
        zip_with3 integration_of (credibility_score sc) (age df) u.
Proof.
  unfold part2. intros Hrun.
  step Hrun base_cred g1 E1. step Hrun noise g2 E2. step Hrun u g3 E3.
  apply ret_Ok in Hrun as [<- <-]. simpl.
  by exists base_cred, noise, u, g1, g2.
Qed.
End Part2.

Section Part2Shape.
Context {G : Type} `{RandomStateSpec G}.

Lemma part2_Ok n df g sc g' :
  part2 n df g = Ok (sc, g') → 0 ≤ n →
  applicants_shape (Z.to_nat n) df →
  (∀ x, x ∈ age df → 18 ≤ x < 65) →
  scores_shape (Z.to_nat n) sc
  ∧ (∀ x, x ∈ credibility_score sc → F64.in_unit x = true)
  ∧ (∀ x, x ∈ risk_score sc → F64.in_unit x = true)
  ∧ (∀ x, x ∈ integration_score sc → F64.in_unit x = true).
Proof.
  intros Hrun Hn Hshape Hage.
  destruct Hshape as (_ & Lc & Lg & La & Le & Ll & _ & _ & _ & Lp & _ & _ & _ & Lt).
  apply part2_columns in Hrun
    as (base_cred & noise & u & g1 & g2 & E1 & E2 & E3 & Hcred & Hraw & Hrisk & Hint).
  apply normal_Ok in E1 as (L1 & Hbase); [|done..].
  apply normal_Ok in E2 as (L2 & Hnoise); [|done..].
  apply random_sample_Ok in E3 as (L3 & Hu); [|done].
  assert (∀ x, x ∈ credibility_score sc → F64.in_unit x = true) as Hc.
  { rewrite Hcred. intros x (i & Hx)%list_elem_of_lookup.
    apply lookup_zip_with4 in Hx as (b & l & e & t & Hb & Hl & He & Ht & ->).
    rewrite list_lookup_fmap in Hl. rewrite list_lookup_fmap in He.
    rewrite list_lookup_fmap in Ht.
    destruct (language_proficiency df !! i) as [l'|]; [|done].
    destruct (education_level df !! i) as [e'|]; [|done].
    destruct (reported_trauma df !! i) as [t'|]; [|done].
    simplify_eq/=. apply credibility_in_unit, Hbase.
    by eapply list_elem_of_lookup_2. }
  assert (length (credibility_score sc) = Z.to_nat n) as Lcred.
  { rewrite Hcred. apply length_zip_with4; rewrite ?length_fmap; done. }
  assert (length (risk_score_uncapped sc) = Z.to_nat n) as Lraw.
  { rewrite Hraw. apply length_zip_with4; rewrite ?length_fmap; done. }
  split; [|split; [done|split]].
  - unfold scores_shape. rewrite Hrisk, length_fmap, Hint.
    split_and!; try done. by apply length_zip_with3.
  - rewrite Hrisk, Hraw. intros x (y & -> & (i & Hy)%list_elem_of_lookup)%list_elem_of_fmap.
    apply lookup_zip_with4 in Hy as (b & p & ge & z & Hb & Hp & Hg & Hz & ->).
    rewrite list_lookup_fmap in Hb. rewrite list_lookup_fmap in Hp.
    rewrite list_lookup_fmap in Hg.
    destruct (country_of_origin df !! i) as [c'|]; [|done].
    destruct (persecution_type df !! i) as [p'|]; [|done].
    destruct (gender df !! i) as [ge'|]; [|done].
    simplify_eq/=. apply clip_in_unit, raw_risk_not_nan, Hnoise.
    by eapply list_elem_of_lookup_2.
  - rewrite Hint. intros x (i & Hx)%list_elem_of_lookup.
    apply lookup_zip_with3 in Hx as (c & a & w & Hc' & Ha & Hw & ->).
    apply integration_in_unit.
    + apply Hc. by eapply list_elem_of_lookup_2.
    + apply Hage. by eapply list_elem_of_lookup_2.
    + apply Hu. by eapply list_elem_of_lookup_2.
Qed.
End Part2Shape.

(** ** Label-based assignment *)

Lemma length_foldl_insert {A} (v : A) (idx : list nat) (col : list A) :
  length (foldl (λ acc i, <[i:=v]> acc) col idx) = length col.
Proof.
  revert col. induction idx as [|j idx IH]; intros col; simpl; [done|].
  by rewrite IH, length_insert.
Qed.

Lemma lookup_insert_same {A} (v : A) (col : list A) (j : nat) :
  <[j:=v]> col !! j = (λ _, v) <$> col !! j.
Proof.
  destruct (decide (j < length col)%nat) as [Hlt|Hge].
  - rewrite list_lookup_insert_eq by done.
    by destruct (lookup_lt_is_Some_2 col j Hlt) as [x ->].
  - rewrite list_insert_ge by lia.
    by rewrite (lookup_ge_None_2 col j) by lia.
Qed.

Lemma lookup_foldl_insert {A} (v : A) (idx : list nat) (col : list A) (i : nat) :
  foldl (λ acc i, <[i:=v]> acc) col idx !! i
  = if decide (i ∈ idx) then (λ _, v) <$> col !! i else col !! i.
Proof.
  revert col. induction idx as [|j idx IH]; intros col; simpl; [done|].
  rewrite IH.
  destruct (decide (i ∈ j :: idx)) as [Hin|Hnin];
    destruct (decide (i ∈ idx)) as [Hin'|Hnin'].
  - destruct (decide (i = j)) as [->|Hne].
    + rewrite lookup_insert_same. by destruct (col !! j).
    + by rewrite list_lookup_insert_ne.
  - apply elem_of_cons in Hin as [->|?]; [|done]. apply lookup_insert_same.
  - exfalso. apply Hnin. by right.
  - rewrite list_lookup_insert_ne; [done|]. intros ->. apply Hnin. by left.
Qed.

Lemma count_insert_true (col : list bool) (i : nat) :
  col !! i = Some false →
  length (filter (λ b, b = true) (<[i:=true]> col))
  = S (length (filter (λ b, b = true) col)).
Proof.
  revert i. induction col as [|b col IH]; intros [|i] Hi; simplify_eq/=.
  - by rewrite filter_cons_False.
  - destruct b.
    + rewrite !filter_cons_True by done. simpl. by rewrite IH.
    + rewrite !filter_cons_False by done. by apply IH.
Qed.

Lemma count_foldl_insert_true (idx : list nat) (col : list bool) :
  NoDup idx → (∀ i, i ∈ idx → col !! i = Some false) →
  length (filter (λ b, b = true) (foldl (λ acc i, <[i:=true]> acc) col idx))
  = (length (filter (λ b, b = true) col) + length idx)%nat.
Proof.
  revert col. induction idx as [|j idx IH]; intros col Hnd Hcol; simpl; [lia|].
  apply NoDup_cons in Hnd as [Hj Hnd].
  rewrite IH; [|done|].
  - rewrite count_insert_true; [lia|]. apply Hcol. by left.
  - intros i Hi. rewrite list_lookup_insert_ne by (by intros ->).
    apply Hcol. by right.
Qed.

Lemma count_replicate_false k :
  length (filter (λ b, b = true) (replicate k false)) = 0%nat.
Proof.
  induction k as [|k IH]; simpl; [done|]. by rewrite filter_cons_False.
Qed.

Lemma lookup_mask_set {A} (col : list A) (mask : list bool) v (i : nat) x :
  mask_set col mask v !! i = Some x ↔
  ∃ c m, col !! i = Some c ∧ mask !! i = Some m ∧ x = if m : bool then v else c.
Proof.
  unfold mask_set. rewrite lookup_zip_with_Some. split.
  - intros (c & m & -> & Hc & Hm). by exists c, m.
  - intros (c & m & Hc & Hm & ->). by exists c, m.
Qed.

Lemma elem_of_index_where (mask : list bool) (i : nat) :
  i ∈ index_where mask ↔ mask !! i = Some true.
Proof.
  unfold index_where. rewrite list_elem_of_filter, elem_of_seq. split.
  - by intros [? _].
  - intros Hi. split; [done|]. apply lookup_lt_Some in Hi. lia.
Qed.

(** The labelled series built on lines 181-184: at every label of [idx]
    present in [col], the flipped value of [col]. *)
Lemma elem_of_flipped (col : list Decision) (idx : list nat) (j : nat) v :
  (j, v) ∈ prod_map Datatypes.id flip <$> loc_get col idx ↔
  j ∈ idx ∧ ∃ a, col !! j = Some a ∧ v = flip a.
Proof.
  unfold loc_get. rewrite list_elem_of_fmap. split.
  - intros ([j' a] & [= -> ->] & (i & Hi & Hja)%list_elem_of_omap).
    destruct (col !! i) as [a'|] eqn:Ei; simplify_eq/=.
    split; [done|]. by exists a.
  - intros (Hj & a & Ha & ->). exists (j, a). split; [done|].
    apply list_elem_of_omap. exists j. split; [done|]. by rewrite Ha.
Qed.

Lemma lookup_loc_set_series (f : Decision → Decision) (col0 : list Decision)
    (series : list (nat * Decision)) (acc : list Decision) (i : nat) :
  length acc = length col0 →
  (∀ j v, (j, v) ∈ series → ∃ a, col0 !! j = Some a ∧ v = f a) →
  (i ∈ series.*1 → loc_set_series acc series !! i = f <$> col0 !! i)
  ∧ (i ∉ series.*1 → loc_set_series acc series !! i = acc !! i).
Proof.
  unfold loc_set_series.
  revert acc. induction series as [|[j v] series IH]; intros acc Hlen Hs.
  { split; [by intros ?%elem_of_nil|done]. }
  destruct (Hs j v) as (a & Ha & ->); [by left|].
  assert (j < length acc)%nat as Hj by (apply lookup_lt_Some in Ha; lia).
  rewrite fmap_cons. cbn [foldl fst].
  destruct (IH (<[j:=f a]> acc)) as [IH1 IH2]; [by rewrite length_insert|..].
  { intros j' v' Hin. apply Hs. by right. }
  split.
  - intros Hin. destruct (decide (i ∈ series.*1)) as [Hin'|Hnin']; [by apply IH1|].
    apply elem_of_cons in Hin as [->|?]; [|done].
    rewrite IH2 by done. by rewrite list_lookup_insert_eq, Ha.
  - intros Hnin. apply not_elem_of_cons in Hnin as [Hne Hnin].
    rewrite IH2 by done. by rewrite list_lookup_insert_ne.
Qed.

(** ** PART 4 *)

Lemma py_int_Ok {G} x (g : G) z g' :
  py_int x g = Ok (z, g') ↔ F64.to_int x = Some z ∧ g = g'.
Proof.
  unfold py_int. destruct (F64.to_int x) as [z'|].
  - rewrite ret_Ok. split; [by intros [-> ->]|by intros [[= ->] ->]].
  - split; [|by intros [? _]]. by destruct (F64.is_nan x).
Qed.

Lemma loc_set_Ok {G A} (col : list A) idx v (g : G) col' g' :
  loc_set col idx v g = Ok (col', g') →
  (∀ i, i ∈ idx → (i < length col)%nat)
  ∧ col' = foldl (λ acc i, <[i:=v]> acc) col idx ∧ g = g'.
Proof.
  unfold loc_set.
  destruct (forallb _ idx) eqn:Hall; [|done].
  intros [<- <-]%ret_Ok. split; [|done].
  intros i Hi%list_elem_of_In.
  rewrite forallb_forall in Hall. apply Hall in Hi.
  by apply bool_decide_eq_true in Hi.
Qed.

Section Part4.
Context {G : Type} `{RandomState G}.

Lemma part4_columns n df ai g ov g' :
  part4 n df ai g = Ok (ov, g') →
  ∃ size idx r base delay g1 g2 g3,
    F64.to_int (lit 10 100 * F64.of_Z n)%f64 = Some size
    ∧ choice_no_replace (seq 0 (length (id df))) size g = Ok (idx, g1)
    ∧ (∀ i, i ∈ idx → (i < length (id df))%nat)
    ∧ random_sample n g1 = Ok (r, g2)
    ∧ randint 30 120 n g2 = Ok (base, g3)
    ∧ randint 20 60 n g3 = Ok (delay, g')
    ∧ human_reviewed ov =
        foldl (λ acc i, <[i:=true]> acc)
              (replicate (length (id df)) false) idx
    ∧ human_override ov =
        mask_set (replicate (length (id df)) false)
          (zip_with (λ reviewed x, reviewed && (x <? lit 50 100)%f64)
                    (human_reviewed ov) r) true
    ∧ final_decision ov =
        loc_set_series ai
          (prod_map Datatypes.id flip
             <$> loc_get ai (index_where (human_override ov)))
    ∧ processing_time_days ov =
        zip_with Z.add base
          (zip_with (λ (reviewed : bool) d, if reviewed then d else 0)
                    (human_reviewed ov) delay).
Proof.
  unfold part4. rewrite length_seq. intros Hrun.
  step Hrun size g0 E0. apply py_int_Ok in E0 as [E0 <-].
  step Hrun idx g1 E1. step Hrun reviewed g1' E2.
  apply loc_set_Ok in E2 as (Hidx & -> & <-).
  rewrite length_replicate in Hidx.
  step Hrun r g2 E3. step Hrun base g3 E4. step Hrun delay g4 E5.
  apply ret_Ok in Hrun as [<- <-].
  cbn [human_reviewed human_override final_decision processing_time_days].
  exists size, idx, r, base, delay, g1, g2, g3.
  split_and!; first [assumption|reflexivity].
Qed.

(** Only reviewed rows can be overridden. *)
Lemma part4_override n df ai g ov g' (i : nat) :
  part4 n df ai g = Ok (ov, g') →
  human_override ov !! i = Some true → human_reviewed ov !! i = Some true.
Proof.
  intros (size & idx & r & base & delay & g1 & g2 & g3 & _ & _ & _ & _ & _ & _
          & _ & Hov & _)%part4_columns.
  rewrite Hov.
  intros (c & m & Hc & Hm & Hx)%lookup_mask_set.
  apply lookup_replicate in Hc as [-> _].
  destruct m; [|done].
  apply lookup_zip_with_Some in Hm as (rv & x & Hand & Hrv & _).
  symmetry in Hand. apply andb_prop in Hand as [-> _]. done.
Qed.

(** The final decision is the AI decision, flipped exactly on overridden
    rows. *)
Lemma part4_final n df ai g ov g' (i : nat) a (o : bool) :
  part4 n df ai g = Ok (ov, g') →
  ai !! i = Some a → human_override ov !! i = Some o →
  final_decision ov !! i = Some (if o then flip a else a).
Proof.
  intros (size & idx & r & base & delay & g1 & g2 & g3 & _ & _ & _ & _ & _ & _
          & _ & _ & Hfin & _)%part4_columns Ha Ho.
  rewrite Hfin.
  set (series := prod_map Datatypes.id flip
                   <$> loc_get ai (index_where (human_override ov))).
  destruct (lookup_loc_set_series flip ai series ai i) as [Hin Hout]; [done|..].
  { intros j v (_ & a' & Ha' & ->)%elem_of_flipped. by exists a'. }
  destruct o.
  - rewrite Hin; [by rewrite Ha|].
    apply list_elem_of_fmap. exists (i, flip a). split; [done|].
    apply elem_of_flipped. split; [by apply elem_of_index_where|by exists a].
  - rewrite Hout; [done|].
    intros ([j v] & -> & (Hj & _)%elem_of_flipped)%list_elem_of_fmap.
    apply elem_of_index_where in Hj. simpl in Ho. congruence.
Qed.

(** The reviewed rows are exactly those drawn by [np.random.choice]. *)
Lemma part4_reviewed n df ai g ov g' :
  part4 n df ai g = Ok (ov, g') →
  ∃ size idx g1,
    F64.to_int (lit 10 100 * F64.of_Z n)%f64 = Some size
    ∧ choice_no_replace (seq 0 (length (id df))) size g = Ok (idx, g1)
    ∧ (∀ i, i ∈ idx → (i < length (id df))%nat)
    ∧ human_reviewed ov =
        foldl (λ acc i, <[i:=true]> acc)
              (replicate (length (id df)) false) idx
    ∧ ∀ i b, human_reviewed ov !! i = Some b → (b = true ↔ i ∈ idx).
Proof.
  intros (size & idx & r & base & delay & g1 & g2 & g3 & Hsize & Hidx & Hrange
          & _ & _ & _ & Hrev & _)%part4_columns.
  exists size, idx, g1. split_and!; try assumption.
  intros i b. rewrite Hrev, lookup_foldl_insert.
  case_decide as Hin.
  - destruct (replicate _ _ !! i); [|done]. simpl. by intros [= <-].
  - intros [-> _]%lookup_replicate. by split.
Qed.
End Part4.

Lemma length_loc_set_series {A} (col : list A) series :
  length (loc_set_series col series) = length col.
Proof.
  unfold loc_set_series. revert col.
  induction series as [|[j v] series IH]; intros col; simpl; [done|].
  by rewrite IH, length_insert.
Qed.

Section Part4Shape.
Context {G : Type} `{RandomStateSpec G}.

Lemma part4_Ok n df ai g ov g' :
  part4 n df ai g = Ok (ov, g') → 0 ≤ n →
  length (id df) = Z.to_nat n → length ai = Z.to_nat n →
  oversight_shape (Z.to_nat n) ov.
Proof.
  intros Hrun Hn Lid Lai.
  apply part4_columns in Hrun
    as (size & idx & r & base & delay & g1 & g2 & g3 & _ & _ & _ & E3 & E4 & E5
        & Hrev & Hov & Hfin & Htime).
  apply random_sample_Ok in E3 as (L3 & _); [|done].
  apply randint_Ok in E4 as (L4 & _); [|done..].
  apply randint_Ok in E5 as (L5 & _); [|done..].
  assert (length (human_reviewed ov) = Z.to_nat n) as Lrev.
  { by rewrite Hrev, length_foldl_insert, length_replicate. }
  unfold oversight_shape. rewrite Hov, Hfin, Htime. unfold mask_set.
  rewrite length_loc_set_series, !length_zip_with, length_replicate.
  split_and!; lia.
Qed.

(** The reviewed labels are distinct, and there are [int(0.10 * n)] of
    them. *)
Lemma part4_reviewed_count n df ai g ov g' :
  part4 n df ai g = Ok (ov, g') →
  ∃ size,
    F64.to_int (lit 10 100 * F64.of_Z n)%f64 = Some size
    ∧ 0 ≤ size ≤ Z.of_nat (length (id df))
    ∧ length (filter (λ b, b = true) (human_reviewed ov)) = Z.to_nat size.
Proof.
  intros (size & idx & g1 & Hsize & Hidx & Hrange & Hrev & _)%part4_reviewed.
  apply choice_no_replace_Ok in Hidx as (Hk & Hlen & Hnd & _);
    [|apply NoDup_seq].
  rewrite length_seq in Hk.
  exists size. split_and!; [done|lia..|].
  rewrite Hrev, count_foldl_insert_true, count_replicate_false; [lia|done|].
  intros i Hi. apply lookup_replicate. split; [done|by apply Hrange].
Qed.
End Part4Shape.

(** ** PART 5 *)

Section Part5.
Context {G : Type} `{RandomState G}.

Lemma appeal_outcome_of_Ok (a : bool) g o g' :
  appeal_outcome_of a g = Ok (o, g') →
  if a then o = overturned ∨ o = upheld else o = NA.
Proof.
  unfold appeal_outcome_of. destruct a; simpl.
  - intros Hrun. step Hrun x g1 E.
    destruct (x <? lit 40 100)%f64; apply ret_Ok in Hrun as [<- _]; auto.
  - by intros [<- _]%ret_Ok.
Qed.

Lemma part5_columns n df sc ov g out g' :
  part5 n df sc ov g = Ok (out, g') →
  ∃ appeal_rand g1 g2,
    random_sample n g = Ok (appeal_rand, g1)
    ∧ appealed out =
        zip_with (λ f x, bool_decide (f = deny) && (x <? lit 30 100)%f64)
                 (final_decision ov) appeal_rand
    ∧ for_each appeal_outcome_of (appealed out) g1
      = Ok (appeal_outcome out, g2)
    ∧ for_each bias_flag_of
        (zip_with4 (λ t c x f, (t, c, x, f)) (reported_trauma df)
           (credibility_score sc) (nexus_established df) (final_decision ov))
        g2
      = Ok (bias_flag out, g').
Proof.
  unfold part5. intros Hrun.
  step Hrun appeal_rand g1 E1. step Hrun outs g2 E2. step Hrun flags g3 E3.
  apply ret_Ok in Hrun as [<- <-]. simpl.
  by exists appeal_rand, g1, g2.
Qed.

Lemma part5_appeal_outcome n df sc ov g out g' (i : nat) a o :
  part5 n df sc ov g = Ok (out, g') →
  appealed out !! i = Some a → appeal_outcome out !! i = Some o →
  if a : bool then o = overturned ∨ o = upheld else o = NA.
Proof.
  intros (appeal_rand & g1 & g2 & _ & _ & Hout & _)%part5_columns Ha Ho.
  apply for_each_Ok in Hout.
  destruct (Forall2_lookup_lr _ _ _ _ _ _ Hout Ha Ho) as (ga & gb & Hrun).
  by eapply appeal_outcome_of_Ok.
Qed.

Lemma part5_bias_flag n df sc ov g out g' (i : nat) t c x f b :
  part5 n df sc ov g = Ok (out, g') →
  reported_trauma df !! i = Some t → credibility_score sc !! i = Some c →
  nexus_established df !! i = Some x → final_decision ov !! i = Some f →
  bias_flag out !! i = Some b →
  ∃ ga gb, choice1 bias_levels (bias_probs_of t c x f) ga = Ok (b, gb).
Proof.
  intros (appeal_rand & g1 & g2 & _ & _ & _ & Hflags)%part5_columns
    Ht Hc Hx Hf Hb.
  apply for_each_Ok in Hflags.
  assert (zip_with4 (λ t c x f, (t, c, x, f)) (reported_trauma df)
            (credibility_score sc) (nexus_established df) (final_decision ov)
          !! i = Some (t, c, x, f)) as Hrow.
  { apply lookup_zip_with4. by exists t, c, x, f. }
  by destruct (Forall2_lookup_lr _ _ _ _ _ _ Hflags Hrow Hb) as (ga & gb & Hrun);
    exists ga, gb.
Qed.
End Part5.

Section Part5Shape.
Context {G : Type} `{RandomStateSpec G}.

Lemma part5_Ok n df sc ov g out g' :
  part5 n df sc ov g = Ok (out, g') → 0 ≤ n →
  applicants_shape (Z.to_nat n) df → scores_shape (Z.to_nat n) sc →
  oversight_shape (Z.to_nat n) ov →
  outcomes_shape (Z.to_nat n) out.
Proof.
  intros Hrun Hn Hdf Hsc Hov.
  destruct Hdf as (_ & _ & _ & _ & _ & _ & _ & _ & _ & _ & Lx & _ & _ & Lt).
  destruct Hsc as (Lc & _). destruct Hov as (_ & _ & Lf & _).
  apply part5_columns in Hrun as (appeal_rand & g1 & g2 & E1 & Happ & E2 & E3).
  apply random_sample_Ok in E1 as (L1 & _); [|done].
  apply for_each_Ok, Forall2_length in E2, E3.
  assert (length (appealed out) = Z.to_nat n) as La.
  { rewrite Happ, length_zip_with. lia. }
  unfold outcomes_shape. rewrite <- E2, <- E3.
  split_and!; [done..|]. by apply length_zip_with4.
Qed.
End Part5Shape.

(** ** The whole pipeline *)

Section GenerateShape.
Context {G : Type} `{RandomStateSpec G}.

(** A run that returns has [n >= 0] and yields [n] rows in every column,
    with all four clipped scores in [0, 1]. *)
Lemma generate_shape n g df g' :
  generate n g = Ok (df, g') →
  0 ≤ n ∧ shape (Z.to_nat n) df
  ∧ (∀ x, x ∈ state_protection_score (inputs df) → F64.in_unit x = true)
  ∧ (∀ x, x ∈ credibility_score (scores df) → F64.in_unit x = true)
  ∧ (∀ x, x ∈ risk_score (scores df) → F64.in_unit x = true)
  ∧ (∀ x, x ∈ integration_score (scores df) → F64.in_unit x = true).
Proof.
  intros (g1 & g2 & g3 & E1 & E2 & E3 & E4 & E5)%generate_Ok.
  apply part1_Ok in E1 as (Hn & Hdf & Hage & Hsp).
  apply part2_Ok in E2 as (Hsc & Hc & Hr & Hi); [|done..].
  assert (length (AI_decision df) = Z.to_nat n) as Lai.
  { rewrite E3. unfold part3.
    destruct Hdf as (_ & _ & _ & _ & _ & _ & _ & _ & _ & _ & Lx & Lsp & _).
    destruct Hsc as (Lc & Lr & _).
    apply length_zip_with3; [|done..]. by apply length_zip_with4. }
  apply part4_Ok in E4 as Hov; [|done|apply Hdf|done].
  apply part5_Ok in E5 as Hout; [|done..].
  unfold shape. split_and!; done.
Qed.
End GenerateShape.

Lemma row_at_total k df (i : nat) :
  shape k df → (i < k)%nat → is_Some (row_at df i).
Proof.
  intros (Hdf & Hsc & Hai & Hov & Hout) Hi.
  destruct Hdf as (? & ? & ? & ? & ? & ? & ? & ? & ? & ? & ? & ? & ? & ?).
  destruct Hsc as (? & ? & ? & ?). destruct Hov as (? & ? & ? & ?).
  destruct Hout as (? & ? & ?).
  unfold row_at.
  repeat match goal with
  | |- is_Some (?l !! i ≫= _) =>
      let x := fresh "x" in let Hx := fresh "Hx" in
      destruct (lookup_lt_is_Some_2 l i) as [x Hx]; [lia|];
      rewrite Hx; simpl
  end.
  done.
Qed.

Lemma omap_lookup_total {A B} (f : A → option B) (l : list A) (i : nat) :
  (∀ x, x ∈ l → is_Some (f x)) → omap f l !! i = l !! i ≫= f.
Proof.
  revert i. induction l as [|x l IH]; intros i Hf; [done|].
  destruct (Hf x) as [y Hy]; [by left|].
  simpl. rewrite Hy. destruct i as [|i]; simpl; [done|].
  apply IH. intros x' Hx'. apply Hf. by right.
Qed.

Lemma rows_lookup k df (i : nat) :
  shape k df → rows df !! i = row_at df i.
Proof.
  intros Hshape. unfold rows.
  assert (nrows df = k) as -> by apply Hshape.
  rewrite omap_lookup_total.
  - destruct (decide (i < k)%nat) as [Hi|Hi].
    + by rewrite lookup_seq_lt.
    + rewrite lookup_seq_ge by lia. simpl. symmetry.
      unfold row_at. rewrite (lookup_ge_None_2 (id (inputs df)) i); [done|].
      destruct Hshape as ((Lid & _) & _). lia.
  - intros j [_ Hj]%elem_of_seq. eapply row_at_total; [done|lia].
Qed.

Lemma length_rows k df : shape k df → length (rows df) = k.
Proof.
  intros Hshape. apply Nat.le_antisymm.
  - apply Nat.nlt_ge. intros Hlt.
    destruct (lookup_lt_is_Some_2 (rows df) k Hlt) as [r Hr].
    rewrite (rows_lookup k) in Hr by done.
    apply row_at_Some in Hr as (Hid & _). apply lookup_lt_Some in Hid.
    destruct Hshape as ((Lid & _) & _). lia.
  - apply Nat.nlt_ge. intros Hlt.
    destruct (row_at_total k df (length (rows df)) Hshape Hlt) as [r Hr].
    rewrite <- (rows_lookup k) in Hr by done.
    apply lookup_lt_Some in Hr. lia.
Qed.

(** ** The concrete generator meets the guarantees *)

Lemma lcg_bits_range s : 0 ≤ Lcg.bits s < 1024.
Proof. unfold Lcg.bits. apply Z.mod_pos_bound. lia. Qed.

Lemma lcg_unit_interval s : unit_interval (Lcg.unit s) = true.
Proof.
  assert (forallb (λ k, unit_interval (F64.of_Z k / F64.of_Z 1024)%f64)
            (seqZ 0 1024) = true) as Hall by (vm_compute; reflexivity).
  rewrite forallb_forall in Hall. apply Hall.
  apply list_elem_of_In, elem_of_seqZ. pose proof (lcg_bits_range s). lia.
Qed.

Lemma lcg_draws {A} k (f : Z → A) s :
  length (Lcg.draws k f s).1 = k
  ∧ ∀ x, x ∈ (Lcg.draws k f s).1 → ∃ s', x = f s'.
Proof.
  revert s. induction k as [|k IH]; intros s; simpl.
  { split; [done|]. by intros x ?%elem_of_nil. }
  destruct (IH (Lcg.next s)) as [Hlen Hin].
  destruct (Lcg.draws k f (Lcg.next s)) as [xs s'']. simpl in *.
  split; [by rewrite Hlen|].
  intros x [->|Hx]%elem_of_cons; [by exists (Lcg.next s)|by apply Hin].
Qed.

Lemma lcg_pick {A} (a : list A) p u d :
  Lcg.pick a p u d = d ∨ Lcg.pick a p u d ∈ a.
Proof.
  revert p u. induction a as [|x a IH]; intros p u; [by left|].
  destruct p as [|q p]; simpl; [by left|].
  destruct (u <? q)%f64; [right; by left|].
  destruct (IH p (u - q)%f64) as [->|Hin]; [by left|right; by right].
Qed.

Lemma lcg_pick_one {A} (a : list A) p d s : d ∈ a → Lcg.pick_one a p d s ∈ a.
Proof.
  intros Hd. unfold Lcg.pick_one. destruct p as [p|].
  - by destruct (lcg_pick a p (Lcg.unit s) d) as [->|?].
  - apply list_elem_of_In, nth_In.
    apply Nat.mod_upper_bound. destruct a; [by apply elem_of_nil in Hd|done].
Qed.

Lemma reverse_head_elem_of {A} (a : list A) d l : reverse a = d :: l → d ∈ a.
Proof. intros Hr. apply elem_of_reverse. rewrite Hr. by left. Qed.

Lemma NoDup_rotate {A} (l : list A) m : NoDup l → NoDup (rotate m l).
Proof.
  intros Hnd. unfold rotate.
  rewrite <- (take_drop (m `mod` length l) l) in Hnd.
  apply NoDup_app in Hnd as (Ht & Hdisj & Hd).
  apply NoDup_app. split_and!; [done| |done].
  intros x Hx Hx'. by apply (Hdisj x).
Qed.

Lemma lcg_spec : RandomStateSpec Z.
Proof.
  split.
  - intros A a p n g Hn. simpl. unfold Lcg.choice.
    by rewrite (proj2 (Z.ltb_lt n 0)).
  - intros A a p n g Hn Ha _. simpl. unfold Lcg.choice.
    rewrite (proj2 (Z.ltb_ge n 0)) by done.
    destruct (reverse a) as [|d l] eqn:Hr.
    { by apply (f_equal reverse) in Hr; rewrite reverse_involutive in Hr. }
    destruct (lcg_draws (Z.to_nat n) (Lcg.pick_one a p d) g) as [Hlen Hin].
    destruct (Lcg.draws _ _ g) as [xs g']. exists xs, g'.
    split_and!; [done..|].
    intros x (s' & ->)%Hin. eapply lcg_pick_one, reverse_head_elem_of, Hr.
  - intros A a p g Ha _. simpl. unfold Lcg.choice1.
    destruct (reverse a) as [|d l] eqn:Hr.
    { by apply (f_equal reverse) in Hr; rewrite reverse_involutive in Hr. }
    eexists _, _. split; [done|].
    destruct (lcg_pick a p (Lcg.unit (Lcg.next g)) d) as [->|?]; [|done].
    eapply reverse_head_elem_of, Hr.
  - intros a k g Hk. simpl. unfold Lcg.choice_no_replace.
    by rewrite (proj2 (Z.ltb_lt k 0)).
  - intros a k g Hk. simpl. unfold Lcg.choice_no_replace.
    rewrite (proj2 (Z.ltb_ge k 0)) by lia. by rewrite (proj2 (Z.ltb_lt _ k)).
  - intros a k g Hk Hnd. simpl. unfold Lcg.choice_no_replace.
    rewrite (proj2 (Z.ltb_ge k 0)), (proj2 (Z.ltb_ge _ k)) by lia.
    eexists _, _. split; [done|]. split_and!.
    + rewrite length_take, length_rotate. lia.
    + eapply sublist_NoDup; [by apply NoDup_rotate|apply sublist_take].
    + intros x Hx%subseteq_take. by apply elem_of_rotate in Hx.
  - intros low high n g Hn Hlh. simpl. unfold Lcg.randint.
    rewrite (proj2 (Z.ltb_ge n 0)), (proj2 (Z.leb_gt high low)) by lia.
    destruct (lcg_draws (Z.to_nat n) (λ s, low + Lcg.bits s `mod` (high - low)) g)
      as [Hlen Hin].
    destruct (Lcg.draws _ _ g) as [xs g']. exists xs, g'.
    split_and!; [done..|].
    intros x (s' & ->)%Hin.
    pose proof (Z.mod_pos_bound (Lcg.bits s') (high - low)). lia.
  - intros loc scale n g Hn _ _ _. simpl. unfold Lcg.normal.
    rewrite (proj2 (Z.ltb_ge n 0)) by lia.
    destruct (lcg_draws (Z.to_nat n) (Lcg.gauss loc scale) g) as [Hlen Hin].
    destruct (Lcg.draws _ _ g) as [xs g']. exists xs, g'.
    split_and!; [done..|].
    intros x (s' & ->)%Hin. unfold Lcg.gauss. cbv zeta.
    match goal with
    | |- context [if F64.is_finite ?y then _ else _] =>
        by destruct (F64.is_finite y) eqn:E
    end.
  - intros k p g Hk _. simpl. unfold Lcg.binomial.
    assert (∀ s, length (Lcg.bernoulli k p s).1 = length p
                 ∧ ∀ x, x ∈ (Lcg.bernoulli k p s).1 → 0 ≤ x ≤ k) as Hb.
    { induction p as [|q p IH]; intros s; simpl.
      { split; [done|]. by intros x ?%elem_of_nil. }
      destruct (IH (Lcg.next s)) as [Hlen Hin].
      destruct (Lcg.bernoulli k p (Lcg.next s)) as [xs s'']. simpl in *.
      split; [by rewrite Hlen|].
      intros x [->|Hx]%elem_of_cons; [|by apply Hin].
      destruct (_ <? _)%f64; lia. }
    destruct (Hb g) as [Hlen Hin].
    destruct (Lcg.bernoulli k p g) as [xs g']. by exists xs, g'.
  - intros n g Hn. simpl. unfold Lcg.random_sample.
    rewrite (proj2 (Z.ltb_ge n 0)) by lia.
    destruct (lcg_draws (Z.to_nat n) Lcg.unit g) as [Hlen Hin].
    destruct (Lcg.draws _ _ g) as [xs g']. exists xs, g'.
    split_and!; [done..|].
    intros x (s' & ->)%Hin. apply lcg_unit_interval.
  - intros g. simpl. unfold Lcg.rand1. eexists _, _. split; [done|].
    apply lcg_unit_interval.
Qed.

(** ** Columns read back from the rows *)

Lemma rows_human_reviewed k df :
  shape k df → Rec.human_reviewed <$> rows df = human_reviewed (oversight df).
Proof.
  intros Hshape. apply list_eq. intros i.
  rewrite list_lookup_fmap, (rows_lookup k) by done.
  destruct (row_at df i) as [r|] eqn:Hr; simpl.
  - by apply row_at_Some in Hr as (_ & _ & _ & _ & _ & _ & _ & _ & _ & _ & _
                                   & _ & _ & _ & _ & -> & _).
  - symmetry. apply lookup_ge_None_2.
    destruct (decide (i < k)%nat) as [Hi|Hi].
    + destruct (row_at_total k df i Hshape Hi) as [r Hr']. congruence.
    + destruct Hshape as (_ & _ & _ & (Lrev & _) & _). lia.
Qed.

Lemma length_filter_fmap {A B} (f : A → B) (P : B → Prop)
    `{∀ y, base.Decision (P y)} (l : list A) :
  length (filter (λ x, P (f x)) l) = length (filter P (f <$> l)).
Proof.
  induction l as [|x l IH]; [done|]. rewrite fmap_cons.
  destruct (decide (P (f x))) as [Hx|Hx].
  - rewrite !filter_cons_True by done. simpl. by rewrite IH.
  - by rewrite !filter_cons_False by done.
Qed.

(** ** Every stage returns when [n >= 0] *)

Lemma bind_Ok_intro {G A B} (c : M G A) (f : A → M G B) g a g1 :
  c g = Ok (a, g1) → (c ≫= f) g = f a g1.
Proof. unfold mbind, M_bind. by intros ->. Qed.

Lemma ret_bind {G A B} (a : A) (f : A → M G B) (g : G) :
  (mret (M := M G) a ≫= f) g = f a g.
Proof. reflexivity. Qed.

Section Totality.
Context {G : Type} `{RandomStateSpec G}.

Lemma part1_total n g : 0 ≤ n → ∃ df g', part1 n g = Ok (df, g').
Proof.
  intros Hn. unfold part1.
  destruct (choice_spec _ countries None n g) as (c1 & g1 & E1 & L1 & _);
    [done..|]. rewrite (bind_Ok_intro _ _ _ _ _ E1).
  destruct (choice_spec _ genders (Some [lit 48 100; lit 48 100; lit 4 100]) n g1)
    as (c2 & g2 & E2 & _); [done..|]. rewrite (bind_Ok_intro _ _ _ _ _ E2).
  destruct (randint_spec 18 65 n g2) as (c3 & g3 & E3 & _); [done..|].
  rewrite (bind_Ok_intro _ _ _ _ _ E3).
  destruct (choice_spec _ education_levels
              (Some [lit 1 10; lit 3 10; lit 4 10; lit 2 10]) n g3)
    as (c4 & g4 & E4 & _); [done..|]. rewrite (bind_Ok_intro _ _ _ _ _ E4).
  destruct (choice_spec _ language_levels
              (Some [lit 5 100; lit 25 100; lit 4 10; lit 2 10; lit 1 10]) n g4)
    as (c5 & g5 & E5 & _); [done..|]. rewrite (bind_Ok_intro _ _ _ _ _ E5).
  destruct (randint_spec 1 7 n g5) as (c6 & g6 & E6 & _); [done..|].
  rewrite (bind_Ok_intro _ _ _ _ _ E6).
  destruct (randint_spec 0 10 n g6) as (c7 & g7 & E7 & _); [done..|].
  rewrite (bind_Ok_intro _ _ _ _ _ E7).
  destruct (choice_spec _ persecution_grounds None n g7)
    as (c8 & g8 & E8 & _); [done..|]. rewrite (bind_Ok_intro _ _ _ _ _ E8).
  destruct (choice_spec _ persecution_types None n g8)
    as (c9 & g9 & E9 & L9 & _); [done..|]. rewrite (bind_Ok_intro _ _ _ _ _ E9).
  destruct (choice_spec _ [true; false] (Some [lit 7 10; lit 3 10]) n g9)
    as (c10 & g10 & E10 & _); [done..|]. rewrite (bind_Ok_intro _ _ _ _ _ E10).
  destruct (normal_spec (lit 3 10) (lit 15 100) n g10)
    as (c11 & g11 & E11 & _); [done..|]. rewrite (bind_Ok_intro _ _ _ _ _ E11).
  destruct (choice_spec _ [true; false] (Some [lit 4 10; lit 6 10]) n g11)
    as (c12 & g12 & E12 & _); [done..|]. rewrite (bind_Ok_intro _ _ _ _ _ E12).
  destruct (binomial_spec 1 (trauma_base c1 c9) g12) as (c13 & g13 & E13 & _);
    [done| |].
  { intros x (i & Hx)%list_elem_of_lookup.
    apply trauma_base_lookup in Hx as (c & p & _ & _ & ->).
    apply trauma_rate_in_unit. }
  rewrite (bind_Ok_intro _ _ _ _ _ E13). by eexists _, _.
Qed.

Lemma part2_total n df g : 0 ≤ n → ∃ sc g', part2 n df g = Ok (sc, g').
Proof.
  intros Hn. unfold part2.
  destruct (normal_spec (lit 65 100) (lit 15 100) n g) as (c1 & g1 & E1 & _);
    [done..|]. rewrite (bind_Ok_intro _ _ _ _ _ E1).
  destruct (normal_spec F64.zero (lit 5 100) n g1) as (c2 & g2 & E2 & _);
    [done..|]. rewrite (bind_Ok_intro _ _ _ _ _ E2).
  destruct (random_sample_spec n g2) as (c3 & g3 & E3 & _); [done|].
  rewrite (bind_Ok_intro _ _ _ _ _ E3). by eexists _, _.
Qed.

Lemma part4_total n df ai g :
  0 ≤ n < 2 ^ 50 → length (id df) = Z.to_nat n →
  ∃ ov g', part4 n df ai g = Ok (ov, g').
Proof.
  intros Hn Lid. unfold part4.
  assert (py_int (lit 10 100 * F64.of_Z n)%f64 g = Ok (n / 10, g)) as E0.
  { apply py_int_Ok. split; [by apply review_size|done]. }
  rewrite (bind_Ok_intro _ _ _ _ _ E0).
  assert (0 ≤ n / 10 ≤ n) as Hsize.
  { split; [apply Z.div_pos; lia|]. apply Z.div_le_upper_bound; lia. }
  destruct (choice_no_replace_spec (seq 0 (length (id df))) (n / 10) g)
    as (idx & g1 & E1 & _ & _ & Hin); [rewrite length_seq; lia|apply NoDup_seq|].
  rewrite (bind_Ok_intro _ _ _ _ _ E1).
  unfold loc_set at 1.
  assert (forallb (λ i, bool_decide (i < length (replicate (length (seq 0 (length (id df)))) false))%nat) idx = true) as ->.
  { apply forallb_forall. intros i Hi%list_elem_of_In%Hin%elem_of_seq.
    apply bool_decide_eq_true. rewrite length_replicate, length_seq. lia. }
  rewrite ret_bind.
  destruct (random_sample_spec n g1) as (c3 & g3 & E3 & _); [lia|].
  rewrite (bind_Ok_intro _ _ _ _ _ E3).
  destruct (randint_spec 30 120 n g3) as (c4 & g4 & E4 & _); [lia..|].
  rewrite (bind_Ok_intro _ _ _ _ _ E4).
  destruct (randint_spec 20 60 n g4) as (c5 & g5 & E5 & _); [lia..|].
  rewrite (bind_Ok_intro _ _ _ _ _ E5). by eexists _, _.
Qed.

Lemma valid_bias_probs t c x f :
  valid_p bias_levels (Some (bias_probs_of t c x f)) = true.
Proof.
  unfold bias_probs_of.
  destruct (t && (c <? lit 5 10)%f64); [done|].
  by destruct (x && bool_decide (f = deny)).
Qed.

Lemma part5_total n df sc ov g : 0 ≤ n → ∃ out g', part5 n df sc ov g = Ok (out, g').
Proof.
  intros Hn. unfold part5.
  destruct (random_sample_spec n g) as (c1 & g1 & E1 & _); [done|].
  rewrite (bind_Ok_intro _ _ _ _ _ E1).
  match goal with
  | |- context [for_each appeal_outcome_of ?l] =>
      destruct (for_each_total appeal_outcome_of l g1) as (c2 & g2 & E2 & _)
  end.
  { intros a g0 _. unfold appeal_outcome_of. destruct a; simpl; [|by eexists _, _].
    destruct (rand1_spec g0) as (x & g0' & E & _).
    rewrite (bind_Ok_intro _ _ _ _ _ E).
    destruct (x <? lit 40 100)%f64; by eexists _, _. }
  rewrite (bind_Ok_intro _ _ _ _ _ E2).
  match goal with
  | |- context [for_each bias_flag_of ?l] =>
      destruct (for_each_total bias_flag_of l g2) as (c3 & g3 & E3 & _)
  end.
  { intros [[[t c] x] f] g0 _. unfold bias_flag_of.
    destruct (choice1_spec _ bias_levels (bias_probs_of t c x f) g0)
      as (b & g0' & E & _); [done|apply valid_bias_probs|].
    by exists b, g0'. }
  rewrite (bind_Ok_intro _ _ _ _ _ E3). by eexists _, _.
Qed.

(** For every table size below [2^50] the pipeline returns a table. *)
Lemma generate_total n g :
  0 ≤ n < 2 ^ 50 → ∃ df g', generate n g = Ok (df, g').
Proof.
  intros Hn. unfold generate.
  destruct (part1_total n g) as (df & g1 & E1); [lia|].
  rewrite (bind_Ok_intro _ _ _ _ _ E1).
  destruct (part2_total n df g1) as (sc & g2 & E2); [lia|].
  rewrite (bind_Ok_intro _ _ _ _ _ E2).
  apply part1_Ok in E1 as (_ & (Lid & _) & _).
  destruct (part4_total n df (part3 df sc) g2) as (ov & g3 & E4); [done..|].
  rewrite (bind_Ok_intro _ _ _ _ _ E4).
  destruct (part5_total n df sc ov g3) as (out & g4 & E5); [lia|].
  rewrite (bind_Ok_intro _ _ _ _ _ E5). by eexists _, _.
Qed.

Lemma generate_negative n g :
  n < 0 →
  generate n g = Raise (ValueError "negative dimensions are not allowed").
Proof.
  intros Hn. unfold generate. apply bind_Raise.
  unfold part1. apply bind_Raise. by apply choice_negative.
Qed.
End Totality.

(** * The claims *)



(** C2: for every record, [final_decision] equals [AI_decision] when
    [human_override] is false and is its complement (approve <-> deny) when
    [human_override] is true; it is a function of those two fields alone. *)
Theorem C2_final_decision_flip {G} `{RandomState G} n (g : G) df g' r :
  generate n g = Ok (df, g') → r ∈ rows df →
  (Rec.human_override r = false → Rec.final_decision r = Rec.AI_decision r)
  ∧ (Rec.human_override r = true →
       Rec.final_decision r = flip (Rec.AI_decision r)
       ∧ Rec.final_decision r ≠ Rec.AI_decision r)
  ∧ flip approve = deny ∧ flip deny = approve.
Proof.
  intros Hrun [i Hr]%elem_of_rows.
  apply generate_Ok in Hrun as (g1 & g2 & g3 & _ & _ & _ & E4 & _).
  row_lookups Hr.
  pose proof (part4_final _ _ _ _ _ _ i _ _ E4 Hai Hoverride) as Hf.
  rewrite Hfinal in Hf. injection Hf as Hf.
  split_and!; [| |done..].
  - intros Ho. by rewrite Ho in Hf.
  - intros Ho. rewrite Ho in Hf. split; [done|].
    rewrite Hf. by destruct (Rec.AI_decision r).
Qed.

Lemma C2_final_decision_flip_witness :
  ∃ df g' r,
    generate (G := Z) 12 42 = Ok (df, g') ∧ r ∈ rows df
    ∧ Rec.human_override r = true
    ∧ Rec.final_decision r = flip (Rec.AI_decision r).
Proof.
  eexists _, _, _.
  split; [vm_compute; reflexivity|].
  split; [vm_compute; do 2 constructor 2; constructor 1|].
  split; [reflexivity|].
  edestruct (C2_final_decision_flip (G := Z) 12 42) as (_ & H2 & _);
    [vm_compute; reflexivity|vm_compute; do 2 constructor 2; constructor 1|].
  exact (proj1 (H2 eq_refl)).
Defined.

(** C3: for every generated record, [credibility_score], [risk_score],
    [integration_score] and [state_protection_score] lie in [0, 1], and
    [risk_score = clip(risk_score_uncapped, 0, 1)]; [risk_score_uncapped]
    itself is not confined: with finite noise its formula yields values
    above 1 and values below 0. *)
Theorem C3_scores_in_unit_interval {G} `{RandomStateSpec G} n (g : G) df g' r :
  generate n g = Ok (df, g') → r ∈ rows df →
  F64.in_unit (Rec.credibility_score r) = true
  ∧ F64.in_unit (Rec.risk_score r) = true
  ∧ F64.in_unit (Rec.integration_score r) = true
  ∧ F64.in_unit (Rec.state_protection_score r) = true
  ∧ Rec.risk_score r = F64.clip (Rec.risk_score_uncapped r) F64.zero F64.one
  ∧ (∃ noise, F64.is_finite noise = true
       ∧ (raw_risk_of (risk_means Syria) (ptype_map sexual_violence)
            (gender_map Female) noise >? F64.one)%f64 = true)
  ∧ (∃ noise, F64.is_finite noise = true
       ∧ (raw_risk_of (risk_means Venezuela) (ptype_map discrimination)
            (gender_map Male) noise <? F64.zero)%f64 = true).
Proof.
  intros Hrun [i Hr]%elem_of_rows.
  pose proof (generate_shape _ _ _ _ Hrun) as (_ & _ & Hsp' & Hc & Hrk & Hi).
  apply generate_Ok in Hrun as (g1 & g2 & g3 & _ & E2 & _).
  apply part2_columns in E2 as (? & ? & ? & ? & ? & _ & _ & _ & _ & _ & Hclip & _).
  row_lookups Hr. split_and!.
  - apply Hc. by eapply list_elem_of_lookup_2.
  - apply Hrk. by eapply list_elem_of_lookup_2.
  - apply Hi. by eapply list_elem_of_lookup_2.
  - apply Hsp'. by eapply list_elem_of_lookup_2.
  - rewrite Hclip, list_lookup_fmap, Hraw in Hrisk. by injection Hrisk as <-.
  - exists F64.zero. by vm_compute.
  - exists (F64.opp F64.one). by vm_compute.
Qed.

Lemma C3_scores_in_unit_interval_witness :
  ∃ df g' r,
    generate (G := Z) 12 42 = Ok (df, g') ∧ r ∈ rows df
    ∧ F64.in_unit (Rec.credibility_score r) = true
    ∧ F64.in_unit (Rec.risk_score r) = true
    ∧ F64.in_unit (Rec.integration_score r) = true
    ∧ F64.in_unit (Rec.state_protection_score r) = true.
Proof.
  eexists _, _, _.
  split; [vm_compute; reflexivity|].
  split; [vm_compute; constructor|].
  pose proof (@C3_scores_in_unit_interval Z _ lcg_spec 12 42) as Hthm.
  edestruct Hthm as (H1 & H2 & H3 & H4 & _);
    [vm_compute; reflexivity|vm_compute; constructor|].
  split_and!; [exact H1|exact H2|exact H3|exact H4].
Defined.

(** C4: for every record, the rate handed to the Bernoulli draw of
    [reported_trauma] is 0.65 if the country is Syria, Afghanistan, Eritrea
    or Somalia and 0.40 otherwise, raised by 0.15 and capped at 0.85 when the
    persecution type is sexual_violence or detention; the four possible
    rates are 0.80, 0.65, 0.55 and 0.40, and for Syria with sexual_violence
    the rate is min(0.65 + 0.15, 0.85) = 0.80. *)
Theorem C4_trauma_rate {G} `{RandomState G} n (g : G) df g' :
  generate n g = Ok (df, g') →
  ∃ rates draws g1 g2,
    binomial 1 rates g1 = Ok (draws, g2)
    ∧ reported_trauma (inputs df) = (λ k, bool_decide (k ≠ 0)) <$> draws
    ∧ ∀ i r, row_at df i = Some r →
        let conflict :=
          isin (Rec.country_of_origin r) [Syria; Afghanistan; Eritrea; Somalia] in
        let gendered :=
          isin (Rec.persecution_type r) [sexual_violence; detention] in
        let base := if conflict then lit 65 100 else lit 40 100 in
        rates !! i
        = Some (if gendered
                then F64.minimum (base + lit 15 100)%f64 (lit 85 100)
                else base)
        ∧ rates !! i
          = Some (match conflict, gendered with
                  | true, true => lit 80 100
                  | true, false => lit 65 100
                  | false, true => lit 55 100
                  | false, false => lit 40 100
                  end)
        ∧ (Rec.country_of_origin r = Syria →
           Rec.persecution_type r = sexual_violence →
           rates !! i
           = Some (F64.minimum (lit 65 100 + lit 15 100)%f64 (lit 85 100))
           ∧ rates !! i = Some (lit 80 100)).
Proof.
  intros Hrun.
  apply generate_Ok in Hrun as (g1 & g2 & g3 & E1 & _).
  apply part1_trauma in E1 as (draws & ga & gb & Hbin & Hflags).
  exists (trauma_base (country_of_origin (inputs df))
            (persecution_type (inputs df))), draws, ga, gb.
  split; [done|]. split; [done|].
  intros i r Hr. row_lookups Hr. cbv zeta.
  assert (trauma_base (country_of_origin (inputs df))
            (persecution_type (inputs df)) !! i
          = Some (trauma_base_ptype (Rec.persecution_type r)
                    (trauma_base_country (Rec.country_of_origin r)))) as ->.
  { apply trauma_base_lookup. by eexists _, _. }
  split_and!.
  - done.
  - destruct (Rec.country_of_origin r), (Rec.persecution_type r);
      vm_compute; reflexivity.
  - intros -> ->. split; vm_compute; reflexivity.
Qed.

Lemma C4_trauma_rate_witness :
  ∃ df g' rates draws g1 g2,
    generate (G := Z) 12 42 = Ok (df, g')
    ∧ binomial 1 rates g1 = Ok (draws, g2)
    ∧ reported_trauma (inputs df) = (λ k, bool_decide (k ≠ 0)) <$> draws.
Proof.
  eexists _, _.
  edestruct (C4_trauma_rate (G := Z) 12 42)
    as (rates & draws & g1 & g2 & Hbin & Htrauma & _);
    [vm_compute; reflexivity|].
  exists rates, draws, g1, g2.
  split; [vm_compute; reflexivity|]. split; [exact Hbin|exact Htrauma].
Defined.

(** C5: a negative record count stops the script at its first sampling
    statement with the error "negative dimensions are not allowed", and the
    run leaves a traceback and no file; for a record count [0 <= n < 2^50]
    the script saves a table of [n] records. *)
Theorem C5_configuration_error {G} `{RandomStateSpec G} (seed n : Z) :
  (n < 0 →
     choice countries None n (np_seed seed)
     = Raise (ValueError "negative dimensions are not allowed")
     ∧ script seed n
       = Traceback (ValueError "negative dimensions are not allowed")
     ∧ ∀ csv, script seed n ≠ Saved csv)
  ∧ (0 ≤ n < 2 ^ 50 →
     ∃ df, script seed n = Saved df
           ∧ shape (Z.to_nat n) df ∧ length (rows df) = Z.to_nat n).
Proof.
  split.
  - intros Hn. unfold script.
    rewrite (generate_negative n (np_seed seed) Hn).
    split_and!; [by apply choice_negative|done|done].
  - intros Hn. unfold script.
    destruct (generate_total n (np_seed seed) Hn) as (df & g' & Hrun).
    rewrite Hrun. exists df. split; [done|].
    apply generate_shape in Hrun as (_ & Hshape & _).
    split; [done|by apply length_rows].
Qed.

Lemma C5_configuration_error_witness :
  script (G := Z) 42 (-1)
  = Traceback (ValueError "negative dimensions are not allowed")
  ∧ ∃ df, script (G := Z) 42 12 = Saved df ∧ length (rows df) = 12%nat.
Proof.
  pose proof (@C5_configuration_error Z _ lcg_spec 42 (-1)) as [Hneg _].
  pose proof (@C5_configuration_error Z _ lcg_spec 42 12) as [_ Hpos].
  split.
  - apply Hneg. reflexivity.
  - destruct Hpos as (df & Hdf & _ & Hlen); [split; [discriminate|reflexivity]|].
    exists df. split; [exact Hdf|exact Hlen].
Defined.

(** C6: exactly [int(0.10 * n)] records have [human_reviewed] true, which
    is [floor(n / 10)] for every table size below [2^50]; they are the
    records whose labels [np.random.choice(..., replace=False)] returned,
    which are pairwise distinct; every other record has [human_reviewed]
    false. *)
Theorem C6_review_subset_size {G} `{RandomStateSpec G} n (g : G) df g' :
  generate n g = Ok (df, g') →
  ∃ size idx g1 g2,
    F64.to_int (lit 10 100 * F64.of_Z n)%f64 = Some size
    ∧ (n < 2 ^ 50 → size = n / 10)
    ∧ choice_no_replace (seq 0 (nrows df)) size g1 = Ok (idx, g2)
    ∧ NoDup idx ∧ length idx = Z.to_nat size
    ∧ length (filter (λ r, Rec.human_reviewed r = true) (rows df))
      = Z.to_nat size
    ∧ ∀ i r, row_at df i = Some r →
        (Rec.human_reviewed r = true ↔ i ∈ idx)
        ∧ (i ∉ idx → Rec.human_reviewed r = false).
Proof.
  intros Hrun.
  pose proof (generate_shape _ _ _ _ Hrun) as (Hn & Hshape & _).
  apply generate_Ok in Hrun as (g1 & g2 & g3 & _ & _ & _ & E4 & _).
  pose proof (part4_reviewed_count _ _ _ _ _ _ E4) as (size' & Hsize' & _ & Hcount).
  apply part4_reviewed in E4 as (size & idx & ga & Hsize & Hidx & _ & _ & Hrev).
  assert (size' = size) as -> by congruence.
  pose proof Hidx as Hidx'.
  apply choice_no_replace_Ok in Hidx' as (_ & Hlen & Hnd & _); [|apply NoDup_seq].
  exists size, idx, g2, ga.
  assert (nrows df = length (id (inputs df))) as -> by reflexivity.
  split; [exact Hsize|]. split; [|split; [exact Hidx|]].
  { intros Hlt. rewrite review_size in Hsize by lia. congruence. }
  split; [exact Hnd|]. split; [exact Hlen|]. split.
  - transitivity
      (length (filter (λ b, b = true) (Rec.human_reviewed <$> rows df)));
      [exact (length_filter_fmap Rec.human_reviewed (λ b, b = true) (rows df))|].
    by rewrite (rows_human_reviewed _ _ Hshape).
  - intros i r Hr. row_lookups Hr.
    pose proof (Hrev i _ Hreviewed) as Hiff. split; [done|].
    intros Hni. destruct (Rec.human_reviewed r); [|done].
    exfalso. by apply Hni, Hiff.
Qed.

Lemma C6_review_subset_size_witness :
  ∃ df g',
    generate (G := Z) 30 42 = Ok (df, g')
    ∧ length (filter (λ r, Rec.human_reviewed r = true) (rows df)) = 3%nat.
Proof.
  eexists _, _. split; [vm_compute; reflexivity|].
  edestruct (@C6_review_subset_size Z _ lcg_spec 30 42)
    as (size & idx & g1 & g2 & Hsize & Hdiv & _ & _ & _ & Hcount & _);
    [vm_compute; reflexivity|].
  rewrite Hcount, (Hdiv eq_refl). reflexivity.
Defined.

(** C7: for every record, [appeal_outcome] is "N/A" if and only if
    [appealed] is false; when [appealed] is true it is "overturned" or
    "upheld". *)
Theorem C7_appeal_outcome_na {G} `{RandomState G} n (g : G) df g' r :
  generate n g = Ok (df, g') → r ∈ rows df →
  (Rec.appeal_outcome r = NA ↔ Rec.appealed r = false)
  ∧ (Rec.appealed r = true →
       Rec.appeal_outcome r = overturned ∨ Rec.appeal_outcome r = upheld).
Proof.
  intros Hrun [i Hr]%elem_of_rows.
  apply generate_Ok in Hrun as (g1 & g2 & g3 & _ & _ & _ & _ & E5).
  row_lookups Hr.
  pose proof (part5_appeal_outcome _ _ _ _ _ _ _ i _ _ E5 Happealed Houtcome)
    as Ho.
  destruct (Rec.appealed r).
  - split; [|done]. split; [|done]. intros Hna. rewrite Hna in Ho.
    by destruct Ho.
  - split; [done|]. done.
Qed.

Lemma C7_appeal_outcome_na_witness :
  ∃ df g' r,
    generate (G := Z) 12 42 = Ok (df, g') ∧ r ∈ rows df
    ∧ (Rec.appeal_outcome r = NA ↔ Rec.appealed r = false).
Proof.
  eexists _, _, _.
  split; [vm_compute; reflexivity|].
  split; [vm_compute; constructor|].
  eapply (C7_appeal_outcome_na (G := Z) 12 42);
    [vm_compute; reflexivity|vm_compute; constructor].
Defined.

(** C8: for every record, [human_override = true] implies
    [human_reviewed = true]. *)
Theorem C8_override_implies_reviewed {G} `{RandomState G} n (g : G) df g' r :
  generate n g = Ok (df, g') → r ∈ rows df →
  Rec.human_override r = true → Rec.human_reviewed r = true.
Proof.
  intros Hrun [i Hr]%elem_of_rows Ho.
  apply generate_Ok in Hrun as (g1 & g2 & g3 & _ & _ & _ & E4 & _).
  row_lookups Hr. rewrite Ho in Hoverride.
  pose proof (part4_override _ _ _ _ _ _ i E4 Hoverride) as Hrev.
  congruence.
Qed.

Lemma C8_override_implies_reviewed_witness :
  ∃ df g' r,
    generate (G := Z) 12 42 = Ok (df, g') ∧ r ∈ rows df
    ∧ Rec.human_override r = true ∧ Rec.human_reviewed r = true.
Proof.
  eexists _, _, _.
  split; [vm_compute; reflexivity|].
  split; [vm_compute; do 2 constructor 2; constructor 1|].
  split; [reflexivity|].
  eapply (C8_override_implies_reviewed (G := Z) 12 42);
    [vm_compute; reflexivity|vm_compute; do 2 constructor 2; constructor 1|].
  reflexivity.
Defined.

(** C9: for every record, [bias_flag] is the result of one weighted draw
    over [none, moderate, severe] whose weights are chosen by the first
    matching condition: (1) [reported_trauma] and [credibility_score < 0.5]
    give [0.40, 0.40, 0.20]; (2) otherwise [nexus_established] and
    [final_decision = deny] give [0.50, 0.35, 0.15]; (3) otherwise
    [0.80, 0.15, 0.05].  The three weight lists differ, so a record meeting
    condition 1 is never drawn with the weights of condition 2 or 3. *)
Theorem C9_bias_flag_weights {G} `{RandomState G} n (g : G) df g' r :
  generate n g = Ok (df, g') → r ∈ rows df →
  let cond1 :=
    Rec.reported_trauma r && (Rec.credibility_score r <? lit 5 10)%f64 in
  let cond2 :=
    Rec.nexus_established r && bool_decide (Rec.final_decision r = deny) in
  let w1 := [lit 40 100; lit 40 100; lit 20 100] in
  let w2 := [lit 50 100; lit 35 100; lit 15 100] in
  let w3 := [lit 80 100; lit 15 100; lit 5 100] in
  ∃ p ga gb,
    choice1 [none; moderate; severe] p ga = Ok (Rec.bias_flag r, gb)
    ∧ (cond1 = true → p = w1 ∧ p ≠ w2 ∧ p ≠ w3)
    ∧ (cond1 = false → cond2 = true → p = w2)
    ∧ (cond1 = false → cond2 = false → p = w3).
Proof.
  intros Hrun [i Hr]%elem_of_rows. cbv zeta.
  apply generate_Ok in Hrun as (g1 & g2 & g3 & _ & _ & _ & _ & E5).
  row_lookups Hr.
  destruct (part5_bias_flag _ _ _ _ _ _ _ i _ _ _ _ _ E5 Htrauma Hcred Hnexus
              Hfinal Hbias) as (ga & gb & Hdraw).
  exists (bias_probs_of (Rec.reported_trauma r) (Rec.credibility_score r)
            (Rec.nexus_established r) (Rec.final_decision r)), ga, gb.
  split; [exact Hdraw|]. unfold bias_probs_of.
  destruct (Rec.reported_trauma r && _);
    [|destruct (Rec.nexus_established r && _)].
  - split; [|split; intros; discriminate]. intros _.
    split; [reflexivity|split; vm_compute; discriminate].
  - split; [intros; discriminate|].
    split; [reflexivity|intros; discriminate].
  - split; [intros; discriminate|].
    split; [intros; discriminate|reflexivity].
Qed.

Lemma C9_bias_flag_weights_witness :
  ∃ df g' r p ga gb,
    generate (G := Z) 12 42 = Ok (df, g') ∧ r ∈ rows df
    ∧ choice1 [none; moderate; severe] p ga = Ok (Rec.bias_flag r, gb).
Proof.
  eexists _, _, _.
  edestruct (C9_bias_flag_weights (G := Z) 12 42)
    as (p & ga & gb & Hdraw & _);
    [vm_compute; reflexivity|vm_compute; constructor|].
  exists p, ga, gb.
  split; [vm_compute; reflexivity|].
  split; [vm_compute; constructor|exact Hdraw].
Defined.



(** * Further properties of the pipeline *)

Lemma row_at_Some_more df i r :
  row_at df i = Some r →
  id (inputs df) !! i = Some (Rec.id r)
  ∧ family_size (inputs df) !! i = Some (Rec.family_size r)
  ∧ prior_camp_years (inputs df) !! i = Some (Rec.prior_camp_years r)
  ∧ processing_time_days (oversight df) !! i = Some (Rec.processing_time_days r).
Proof.
  unfold row_at. intros Hr.
  repeat (apply bind_Some in Hr as (? & ? & Hr)).
  injection Hr as <-. simpl. split_and!; assumption.
Qed.

Lemma SFcompare_antisym x y : SFcompare y x = CompOpp <$> SFcompare x y.
Proof.
  destruct x as [sx|sx| |sx mx ex], y as [sy|sy| |sy my ey]; simpl;
    try done; try (by destruct sx); try (by destruct sy);
    try (by destruct sx, sy).
  destruct sx, sy; try done; f_equal.
  - rewrite (Z.compare_antisym ex ey).
    destruct (ex ?= ey); simpl; try done.
    by rewrite (Pos.compare_cont_antisym mx my Eq).
  - rewrite (Z.compare_antisym ex ey).
    destruct (ex ?= ey); simpl; try done.
    by rewrite (Pos.compare_cont_antisym mx my Eq).
Qed.

Lemma ltb_asym x y : (x <? y)%f64 = true → (y <? x)%f64 = false.
Proof.
  unfold F64.ltb, SFltb. rewrite (SFcompare_antisym x y).
  by destruct (SFcompare x y) as [[]|].
Qed.

Lemma leb_not_ltb x y : (x <=? y)%f64 = true → (y <? x)%f64 = false.
Proof.
  unfold F64.ltb, F64.leb, SFltb, SFleb. rewrite (SFcompare_antisym x y).
  by destruct (SFcompare x y) as [[]|].
Qed.

Lemma ltb_not_nan_l x y : (x <? y)%f64 = true → F64.is_nan x = false.
Proof. by destruct x. Qed.

(** The three regimes of [np.clip(x, 0, 1)]. *)
Lemma clip_unit_cases x :
  ((F64.zero <? x)%f64 = true → (x <? F64.one)%f64 = true →
     F64.clip x F64.zero F64.one = x)
  ∧ ((F64.one <=? x)%f64 = true → F64.clip x F64.zero F64.one = F64.one)
  ∧ ((x <=? F64.zero)%f64 = true → F64.clip x F64.zero F64.one = F64.zero).
Proof.
  unfold F64.clip, F64.max, F64.min, F64.gtb. split_and!.
  - intros H0 H1. rewrite (ltb_not_nan_l _ _ H1). fold (F64.ltb F64.zero x).
    by rewrite H0, (ltb_not_nan_l _ _ H1), H1.
  - intros H1. rewrite (leb_not_nan_r _ _ H1).
    assert (SFltb F64.zero x = true) as ->
      by (by destruct x as [?|[]| |[] m e]).
    by rewrite (leb_not_nan_r _ _ H1), (leb_not_ltb _ _ H1).
  - intros H0. rewrite (leb_not_nan_l _ _ H0).
    fold (F64.ltb F64.zero x). by rewrite (leb_not_ltb _ _ H0).
Qed.

Lemma rows_fmap {A} (f : Rec.t → A) (col : list A) k df :
  shape k df → length col = k →
  (∀ i r, row_at df i = Some r → col !! i = Some (f r)) →
  f <$> rows df = col.
Proof.
  intros Hshape Hlen Hcol. apply list_eq. intros i.
  rewrite list_lookup_fmap, (rows_lookup k) by done.
  destruct (row_at df i) as [r|] eqn:Hr; simpl.
  - symmetry. by apply Hcol.
  - symmetry. apply lookup_ge_None_2.
    destruct (decide (i < k)%nat) as [Hi|Hi]; [|lia].
    destruct (row_at_total k df i Hshape Hi) as [r Hr']. congruence.
Qed.

Lemma length_filter_impl {A} (P Q : A → Prop)
    `{∀ x, base.Decision (P x)} `{∀ x, base.Decision (Q x)} (l : list A) :
  (∀ x, x ∈ l → P x → Q x) →
  (length (filter P l) ≤ length (filter Q l))%nat.
Proof.
  induction l as [|x l IH]; intros Himpl; [done|].
  assert (length (filter P l) ≤ length (filter Q l))%nat as IH'.
  { apply IH. intros y Hy. apply Himpl. by right. }
  destruct (decide (P x)) as [HP|HP].
  - rewrite (filter_cons_True P) by done.
    rewrite (filter_cons_True Q) by (apply Himpl; [by left|done]).
    simpl. lia.
  - rewrite (filter_cons_False P) by done.
    destruct (decide (Q x)).
    + rewrite (filter_cons_True Q) by done. simpl. lia.
    + by rewrite (filter_cons_False Q) by done.
Qed.

Lemma count_true_le (xs ys : list bool) :
  (∀ i : nat, xs !! i = Some true → ys !! i = Some true) →
  (count_true xs ≤ count_true ys)%nat.
Proof.
  unfold count_true. revert ys.
  induction xs as [|x xs IH]; intros ys Himpl; [simpl; lia|].
  destruct ys as [|y ys].
  - destruct x.
    + by specialize (Himpl 0%nat eq_refl).
    + rewrite filter_cons_False by done.
      etrans; [apply (IH [])|done]. intros i Hi. by specialize (Himpl (S i) Hi).
  - assert (length (filter (λ b, b = true) xs)
            ≤ length (filter (λ b, b = true) ys))%nat as IH'.
    { apply IH. intros i Hi. apply (Himpl (S i) Hi). }
    destruct x.
    + specialize (Himpl 0%nat eq_refl). injection Himpl as ->.
      rewrite !filter_cons_True by done. simpl. lia.
    + rewrite (filter_cons_False _ false) by done.
      destruct y; [rewrite filter_cons_True by done; simpl; lia|].
      by rewrite filter_cons_False by done.
Qed.

Lemma part1_id {G} `{RandomState G} n (g : G) df g' :
  part1 n g = Ok (df, g') → id df = seqZ 1 n.
Proof.
  unfold part1. intros Hrun.
  step Hrun c_country g1 E1. step Hrun c_gender g2 E2.
  step Hrun c_age g3 E3. step Hrun c_edu g4 E4. step Hrun c_lang g5 E5.
  step Hrun c_fam g6 E6. step Hrun c_camp g7 E7. step Hrun c_ground g8 E8.
  step Hrun c_ptype g9 E9. step Hrun c_nexus g10 E10. step Hrun sp g11 E11.
  step Hrun c_reloc g12 E12. step Hrun trauma g13 E13.
  apply ret_Ok in Hrun as [<- <-]. cbn [id]. unfold range. f_equal. lia.
Qed.

Section Ranges.
Context {G : Type} `{RandomStateSpec G}.

Lemma part1_ranges n g df g' :
  part1 n g = Ok (df, g') →
  (∀ x, x ∈ family_size df → 1 ≤ x < 7)
  ∧ (∀ x, x ∈ prior_camp_years df → 0 ≤ x < 10)
  ∧ (∀ x, x ∈ state_protection_score df →
       (lit 5 100 <=? x)%f64 = true ∧ (x <=? F64.one)%f64 = true).
Proof.
  unfold part1. intros Hrun.
  step Hrun c_country g1 E1. step Hrun c_gender g2 E2.
  step Hrun c_age g3 E3. step Hrun c_edu g4 E4. step Hrun c_lang g5 E5.
  step Hrun c_fam g6 E6. step Hrun c_camp g7 E7. step Hrun c_ground g8 E8.
  step Hrun c_ptype g9 E9. step Hrun c_nexus g10 E10. step Hrun sp g11 E11.
  step Hrun c_reloc g12 E12. step Hrun trauma g13 E13.
  apply ret_Ok in Hrun as [<- <-].
  cbn [family_size prior_camp_years state_protection_score].
  apply choice_Ok in E1 as (Hn & _); [|done..].
  apply randint_Ok in E6 as (_ & Hfam); [|done..].
  apply randint_Ok in E7 as (_ & Hcamp); [|done..].
  apply normal_Ok in E11 as (_ & Hsp); [|done..].
  split; [exact Hfam|]. split; [exact Hcamp|].
  intros x (y & -> & Hy)%list_elem_of_fmap.
  apply clip_bounds; [|done]. apply finite_not_nan. by apply Hsp.
Qed.

Lemma part4_times n df ai g ov g' (i : nat) (rv : bool) t :
  part4 n df ai g = Ok (ov, g') → 0 ≤ n →
  human_reviewed ov !! i = Some rv →
  processing_time_days ov !! i = Some t →
  if rv then 50 ≤ t < 180 else 30 ≤ t < 120.
Proof.
  intros Hrun Hn Hrv Ht.
  apply part4_columns in Hrun
    as (size & idx & r & base & delay & g1 & g2 & g3 & _ & _ & _ & _ & E4 & E5
        & _ & _ & _ & Htime).
  apply randint_Ok in E4 as (_ & Hbase); [|done..].
  apply randint_Ok in E5 as (_ & Hdelay); [|done..].
  rewrite Htime in Ht.
  apply lookup_zip_with_Some in Ht as (b & d' & -> & Hb & Hd').
  apply lookup_zip_with_Some in Hd' as (rv' & d & -> & Hrv' & Hd).
  assert (rv' = rv) as -> by congruence.
  apply list_elem_of_lookup_2, Hbase in Hb.
  apply list_elem_of_lookup_2, Hdelay in Hd.
  destruct rv; lia.
Qed.
End Ranges.

(** X1: the [id] column of a generated table is [1, 2, ..., n] in row
    order, so the ids are pairwise distinct and cover [1, n] without a
    gap. *)
Theorem X1_ids_dense {G} `{RandomStateSpec G} n (g : G) df g' :
  generate n g = Ok (df, g') →
  Rec.id <$> rows df = seqZ 1 n
  ∧ NoDup (Rec.id <$> rows df)
  ∧ (∀ r, r ∈ rows df → 1 ≤ Rec.id r ≤ n)
  ∧ (∀ k, 1 ≤ k ≤ n → ∃ r, r ∈ rows df ∧ Rec.id r = k).
Proof.
  intros Hrun.
  pose proof (generate_shape _ _ _ _ Hrun) as (Hn & Hshape & _).
  apply generate_Ok in Hrun as (g1 & g2 & g3 & E1 & _).
  apply part1_id in E1 as Hid.
  assert (Rec.id <$> rows df = seqZ 1 n) as Heq.
  { rewrite <- Hid. apply (rows_fmap _ _ (Z.to_nat n)); [done|apply Hshape|].
    intros i r Hr. by apply row_at_Some_more in Hr as (? & _). }
  split; [exact Heq|]. split; [rewrite Heq; apply NoDup_seqZ|]. split.
  - intros r Hr.
    assert (Rec.id r ∈ seqZ 1 n) as Hin
      by (rewrite <- Heq; by apply list_elem_of_fmap_2).
    apply elem_of_seqZ in Hin. lia.
  - intros k Hk.
    assert (k ∈ Rec.id <$> rows df) as Hin
      by (rewrite Heq; apply elem_of_seqZ; lia).
    apply list_elem_of_fmap in Hin as (r & -> & Hr). by exists r.
Qed.

Lemma X1_ids_dense_witness :
  ∃ df g',
    generate (G := Z) 12 42 = Ok (df, g')
    ∧ Rec.id <$> rows df = [1; 2; 3; 4; 5; 6; 7; 8; 9; 10; 11; 12].
Proof.
  eexists _, _. split; [vm_compute; reflexivity|].
  edestruct (@X1_ids_dense Z _ lcg_spec 12 42) as (Hids & _);
    [vm_compute; reflexivity|].
  exact Hids.
Defined.

(** X2: for every record, [age] is in [18, 65), [family_size] in [1, 7)
    and [prior_camp_years] in [0, 10), the ranges given to
    [np.random.randint]. *)
Theorem X2_integer_attribute_ranges {G} `{RandomStateSpec G} n (g : G) df g' r :
  generate n g = Ok (df, g') → r ∈ rows df →
  18 ≤ Rec.age r < 65
  ∧ 1 ≤ Rec.family_size r < 7
  ∧ 0 ≤ Rec.prior_camp_years r < 10.
Proof.
  intros Hrun [i Hr]%elem_of_rows.
  apply generate_Ok in Hrun as (g1 & g2 & g3 & E1 & _).
  pose proof (part1_ranges _ _ _ _ E1) as (Hfam & Hcamp & _).
  apply part1_Ok in E1 as (_ & _ & Hage' & _).
  pose proof (row_at_Some_more _ _ _ Hr) as (_ & Hf & Hc & _).
  row_lookups Hr. split; [|split].
  - apply Hage'. by eapply list_elem_of_lookup_2.
  - apply Hfam. by eapply list_elem_of_lookup_2.
  - apply Hcamp. by eapply list_elem_of_lookup_2.
Qed.

Lemma X2_integer_attribute_ranges_witness :
  ∃ df g' r,
    generate (G := Z) 12 42 = Ok (df, g') ∧ r ∈ rows df
    ∧ 18 ≤ Rec.age r < 65.
Proof.
  eexists _, _, _.
  split; [vm_compute; reflexivity|].
  split; [vm_compute; constructor|].
  edestruct (@X2_integer_attribute_ranges Z _ lcg_spec 12 42) as (Hage & _);
    [vm_compute; reflexivity|vm_compute; constructor|].
  exact Hage.
Defined.

(** X3: for every record, [state_protection_score] lies in [0.05, 1.0]:
    the clip of line 68 puts a floor of 0.05 under the normal draw, so the
    score is never zero or negative. *)
Theorem X3_state_protection_floor {G} `{RandomStateSpec G} n (g : G) df g' r :
  generate n g = Ok (df, g') → r ∈ rows df →
  (lit 5 100 <=? Rec.state_protection_score r)%f64 = true
  ∧ (Rec.state_protection_score r <=? F64.one)%f64 = true
  ∧ (F64.zero <? Rec.state_protection_score r)%f64 = true.
Proof.
  intros Hrun [i Hr]%elem_of_rows.
  apply generate_Ok in Hrun as (g1 & g2 & g3 & E1 & _).
  pose proof (part1_ranges _ _ _ _ E1) as (_ & _ & Hsp').
  row_lookups Hr.
  destruct (Hsp' (Rec.state_protection_score r)) as [Hlo Hhi];
    [by eapply list_elem_of_lookup_2|].
  split; [exact Hlo|]. split; [exact Hhi|].
  revert Hlo. generalize (Rec.state_protection_score r).
  change (lit 5 100) with (S754_finite false 7205759403792794 (-57)).
  by intros [?|[]| |[] m e].
Qed.

Lemma X3_state_protection_floor_witness :
  ∃ df g' r,
    generate (G := Z) 12 42 = Ok (df, g') ∧ r ∈ rows df
    ∧ (lit 5 100 <=? Rec.state_protection_score r)%f64 = true.
Proof.
  eexists _, _, _.
  split; [vm_compute; reflexivity|].
  split; [vm_compute; constructor|].
  edestruct (@X3_state_protection_floor Z _ lcg_spec 12 42) as (Hlo & _);
    [vm_compute; reflexivity|vm_compute; constructor|].
  exact Hlo.
Defined.

(** X4: for every record, [processing_time_days] is at least 30; it is in
    [30, 120) for a record that was not reviewed and in [50, 180) for a
    reviewed one (the review adds 20 to 59 days). *)
Theorem X4_processing_time_bounds {G} `{RandomStateSpec G} n (g : G) df g' r :
  generate n g = Ok (df, g') → r ∈ rows df →
  30 ≤ Rec.processing_time_days r
  ∧ (Rec.human_reviewed r = false → Rec.processing_time_days r < 120)
  ∧ (Rec.human_reviewed r = true → 50 ≤ Rec.processing_time_days r < 180).
Proof.
  intros Hrun [i Hr]%elem_of_rows.
  pose proof (generate_shape _ _ _ _ Hrun) as (Hn & _).
  apply generate_Ok in Hrun as (g1 & g2 & g3 & _ & _ & _ & E4 & _).
  pose proof (row_at_Some_more _ _ _ Hr) as (_ & _ & _ & Ht).
  row_lookups Hr.
  pose proof (part4_times _ _ _ _ _ _ i _ _ E4 Hn Hreviewed Ht) as Hb.
  destruct (Rec.human_reviewed r); (split; [lia|split; intros; [done || lia|done || lia]]).
Qed.

Lemma X4_processing_time_bounds_witness :
  ∃ df g' r,
    generate (G := Z) 12 42 = Ok (df, g') ∧ r ∈ rows df
    ∧ Rec.human_reviewed r = true
    ∧ 50 ≤ Rec.processing_time_days r < 180.
Proof.
  eexists _, _, _.
  split; [vm_compute; reflexivity|].
  split; [vm_compute; do 2 constructor 2; constructor 1|].
  split; [reflexivity|].
  edestruct (@X4_processing_time_bounds Z _ lcg_spec 12 42) as (_ & _ & Hrev);
    [vm_compute; reflexivity|vm_compute; do 2 constructor 2; constructor 1|].
  exact (Hrev eq_refl).
Defined.

Section Oversight.
Context {G : Type} `{RandomState G}.

(** Line 176 on one row: the override flag is the review flag and the coin. *)
Lemma part4_override_coin n df ai (g : G) ov g' :
  part4 n df ai g = Ok (ov, g') →
  ∃ coins ga gb,
    random_sample n ga = Ok (coins, gb)
    ∧ ∀ (i : nat) (o : bool), human_override ov !! i = Some o →
        ∃ (rv : bool) x,
          human_reviewed ov !! i = Some rv ∧ coins !! i = Some x
          ∧ o = rv && (x <? lit 50 100)%f64.
Proof.
  intros (size & idx & r & base & delay & g1 & g2 & g3 & _ & _ & _ & Er & _ & _
          & _ & Hov & _)%part4_columns.
  exists r, g1, g2. split; [exact Er|].
  intros i o. rewrite Hov.
  intros (c & m & Hc & Hm & ->)%lookup_mask_set.
  apply lookup_replicate in Hc as [-> _].
  apply lookup_zip_with_Some in Hm as (rv & x & -> & Hrv & Hx).
  exists rv, x. split; [exact Hrv|]. split; [exact Hx|].
  by destruct (rv && _).
Qed.

(** Line 197 on one row. *)
Lemma part5_appealed n df sc ov (g : G) out g' :
  part5 n df sc ov g = Ok (out, g') →
  ∃ appeal_rand g1,
    random_sample n g = Ok (appeal_rand, g1)
    ∧ ∀ (i : nat) (a : bool), appealed out !! i = Some a →
        ∃ f x,
          final_decision ov !! i = Some f ∧ appeal_rand !! i = Some x
          ∧ a = bool_decide (f = deny) && (x <? lit 30 100)%f64.
Proof.
  intros (appeal_rand & g1 & g2 & E1 & Happ & _)%part5_columns.
  exists appeal_rand, g1. split; [exact E1|].
  intros i a. rewrite Happ.
  intros (f & x & -> & Hf & Hx)%lookup_zip_with_Some. by exists f, x.
Qed.
End Oversight.

(** X5: a record is marked [appealed] exactly when its [final_decision] is
    "deny" and its own uniform draw is below 0.30; so an appeal, and an
    "overturned" or "upheld" outcome, only occur on denied records, and an
    approved record always has [appeal_outcome] "N/A". *)
Theorem X5_appeal_requires_denial {G} `{RandomState G} n (g : G) df g' :
  generate n g = Ok (df, g') →
  ∃ appeal_rand ga gb,
    random_sample n ga = Ok (appeal_rand, gb)
    ∧ ∀ i r, row_at df i = Some r →
        (∃ x, appeal_rand !! i = Some x
              ∧ Rec.appealed r
                = bool_decide (Rec.final_decision r = deny)
                  && (x <? lit 30 100)%f64)
        ∧ (Rec.appealed r = true → Rec.final_decision r = deny)
        ∧ (Rec.appeal_outcome r ≠ NA → Rec.final_decision r = deny)
        ∧ (Rec.final_decision r = approve →
             Rec.appealed r = false ∧ Rec.appeal_outcome r = NA).
Proof.
  intros Hrun.
  apply generate_Ok in Hrun as (g1 & g2 & g3 & _ & _ & _ & _ & E5).
  pose proof (part5_appealed _ _ _ _ _ _ _ E5) as (appeal_rand & gb & Er & Happ).
  exists appeal_rand, g3, gb. split; [exact Er|].
  intros i r Hr. row_lookups Hr.
  destruct (Happ i _ Happealed) as (f & x & Hf & Hx & Ha).
  assert (f = Rec.final_decision r) as -> by congruence.
  pose proof (part5_appeal_outcome _ _ _ _ _ _ _ i _ _ E5 Happealed Houtcome)
    as Ho.
  assert (Rec.appealed r = true → Rec.final_decision r = deny) as Hdeny.
  { rewrite Ha. intros [Hd _]%andb_prop. by apply bool_decide_eq_true in Hd. }
  split; [by exists x|]. split; [exact Hdeny|]. split.
  - intros Hna. apply Hdeny. destruct (Rec.appealed r); [done|]. by destruct Hna.
  - intros Happr. destruct (Rec.appealed r).
    + specialize (Hdeny eq_refl). congruence.
    + by split.
Qed.

Lemma X5_appeal_requires_denial_witness :
  ∃ df g' appeal_rand ga gb,
    generate (G := Z) 12 42 = Ok (df, g')
    ∧ random_sample 12 ga = Ok (appeal_rand, gb).
Proof.
  eexists _, _.
  edestruct (X5_appeal_requires_denial (G := Z) 12 42)
    as (appeal_rand & ga & gb & Er & _); [vm_compute; reflexivity|].
  exists appeal_rand, ga, gb.
  split; [vm_compute; reflexivity|exact Er].
Defined.

(** X6: every score of a record is computed from that record's own
    attributes and its own draws: [credibility_score] is the clipped sum of
    the record's normal draw and its language, education and trauma
    effects (the three penalties stack), [risk_score_uncapped] is the sum of
    the country, persecution-type and gender effects and of the record's
    noise, and [integration_score] is computed from the record's own
    [credibility_score], [age] and uniform draw. *)
Theorem X6_scores_are_row_wise {G} `{RandomState G} n (g : G) df g' :
  generate n g = Ok (df, g') →
  ∃ base_cred noise u g1 g2 g3 g4,
    normal (lit 65 100) (lit 15 100) n g1 = Ok (base_cred, g2)
    ∧ normal F64.zero (lit 5 100) n g2 = Ok (noise, g3)
    ∧ random_sample n g3 = Ok (u, g4)
    ∧ ∀ i r, row_at df i = Some r →
        ∃ b z w,
          base_cred !! i = Some b ∧ noise !! i = Some z ∧ u !! i = Some w
          ∧ Rec.credibility_score r
            = F64.clip (b + language_map (Rec.language_proficiency r)
                          + edu_map (Rec.education_level r)
                          + (if Rec.reported_trauma r
                             then F64.opp (lit 8 100) else F64.zero))%f64
                       F64.zero F64.one
          ∧ Rec.risk_score_uncapped r
            = (risk_means (Rec.country_of_origin r)
               + ptype_map (Rec.persecution_type r)
               + gender_map (Rec.gender r) + z)%f64
          ∧ Rec.integration_score r
            = integration_of (Rec.credibility_score r) (Rec.age r) w
          ∧ (Rec.language_proficiency r = LangNone →
             Rec.education_level r = EduNone →
             Rec.reported_trauma r = true →
             Rec.credibility_score r
             = F64.clip (b + F64.opp (lit 20 100) + F64.opp (lit 10 100)
                           + F64.opp (lit 8 100))%f64 F64.zero F64.one).
Proof.
  intros Hrun.
  apply generate_Ok in Hrun as (g1 & g2 & g3 & _ & E2 & _).
  apply part2_columns in E2
    as (base_cred & noise & u & ga & gb & E1 & E2 & E3 & Hc & Hr' & _ & Hi).
  exists base_cred, noise, u, g1, ga, gb, g2.
  split; [exact E1|]. split; [exact E2|]. split; [exact E3|].
  intros i r Hr. row_lookups Hr. pose proof Hcred as Hcred0.
  rewrite Hi in Hinteg. rewrite Hc in Hcred. rewrite Hr' in Hraw.
  apply lookup_zip_with3 in Hinteg as (c & a & w & Hc' & Ha & Hw & Hinteg).
  apply lookup_zip_with4 in Hcred as (b & l & e & t & Hb & Hl & He & Ht & Hcred).
  apply lookup_zip_with4 in Hraw as (br & p & ge & z & Hbr & Hp & Hge & Hz & Hraw).
  rewrite list_lookup_fmap, Hlang in Hl. rewrite list_lookup_fmap, Hedu in He.
  rewrite list_lookup_fmap, Htrauma in Ht.
  rewrite list_lookup_fmap, Hcountry in Hbr.
  rewrite list_lookup_fmap, Hptype in Hp.
  rewrite list_lookup_fmap, Hgender in Hge.
  simpl in Hl, He, Ht, Hbr, Hp, Hge.
  injection Hl as <-. injection He as <-. injection Ht as <-.
  injection Hbr as <-. injection Hp as <-. injection Hge as <-.
  assert (c = Rec.credibility_score r) as -> by congruence.
  assert (a = Rec.age r) as -> by congruence.
  exists b, z, w.
  split; [done|]. split; [done|]. split; [done|].
  split; [exact Hcred|]. split; [exact Hraw|]. split; [exact Hinteg|].
  intros Hl He Ht. rewrite Hcred, Hl, He, Ht. reflexivity.
Qed.

Lemma X6_scores_are_row_wise_witness :
  ∃ df g' base_cred g1 g2,
    generate (G := Z) 12 42 = Ok (df, g')
    ∧ normal (lit 65 100) (lit 15 100) 12 g1 = Ok (base_cred, g2).
Proof.
  eexists _, _.
  edestruct (X6_scores_are_row_wise (G := Z) 12 42)
    as (base_cred & noise & u & g1 & g2 & g3 & g4 & E1 & _);
    [vm_compute; reflexivity|].
  exists base_cred, g1, g2.
  split; [vm_compute; reflexivity|exact E1].
Defined.

(** X7: [human_override] is the conjunction of [human_reviewed] and the
    record's own coin [rand < 0.50]; a record that was not reviewed is
    never overridden and keeps the AI decision as its final decision. *)
Theorem X7_unreviewed_keeps_ai_decision {G} `{RandomState G} n (g : G) df g' :
  generate n g = Ok (df, g') →
  ∃ coins ga gb,
    random_sample n ga = Ok (coins, gb)
    ∧ ∀ i r, row_at df i = Some r →
        (∃ x, coins !! i = Some x
              ∧ Rec.human_override r
                = Rec.human_reviewed r && (x <? lit 50 100)%f64)
        ∧ (Rec.human_reviewed r = false →
             Rec.human_override r = false
             ∧ Rec.final_decision r = Rec.AI_decision r).
Proof.
  intros Hrun.
  apply generate_Ok in Hrun as (g1 & g2 & g3 & _ & _ & _ & E4 & _).
  pose proof (part4_override_coin _ _ _ _ _ _ E4) as (coins & ga & gb & Er & Hov).
  exists coins, ga, gb. split; [exact Er|].
  intros i r Hr. row_lookups Hr.
  destruct (Hov i _ Hoverride) as (rv & x & Hrv & Hx & Ho).
  assert (rv = Rec.human_reviewed r) as -> by congruence.
  split; [by exists x|].
  intros Hnr. rewrite Hnr in Ho. simpl in Ho.
  pose proof (part4_final _ _ _ _ _ _ i _ _ E4 Hai Hoverride) as Hf.
  rewrite Ho in Hf. split; [exact Ho|]. congruence.
Qed.

Lemma X7_unreviewed_keeps_ai_decision_witness :
  ∃ df g' coins ga gb,
    generate (G := Z) 12 42 = Ok (df, g')
    ∧ random_sample 12 ga = Ok (coins, gb).
Proof.
  eexists _, _.
  edestruct (X7_unreviewed_keeps_ai_decision (G := Z) 12 42)
    as (coins & ga & gb & Er & _); [vm_compute; reflexivity|].
  exists coins, ga, gb.
  split; [vm_compute; reflexivity|exact Er].
Defined.

Section ReviewCount.
Context {G : Type} `{RandomStateSpec G}.

Lemma reviewed_rows_count n (g : G) df g' :
  generate n g = Ok (df, g') →
  ∃ size,
    F64.to_int (lit 10 100 * F64.of_Z n)%f64 = Some size
    ∧ 0 ≤ size ≤ n
    ∧ length (filter (λ r, Rec.human_reviewed r = true) (rows df))
      = Z.to_nat size.
Proof.
  intros Hrun.
  pose proof (generate_shape _ _ _ _ Hrun) as (Hn & Hshape & _).
  apply generate_Ok in Hrun as (g1 & g2 & g3 & _ & _ & _ & E4 & _).
  pose proof (part4_reviewed_count _ _ _ _ _ _ E4) as (size & Hsize & Hle & Hcount).
  assert (length (id (inputs df)) = Z.to_nat n) as Lid by apply Hshape.
  exists size. split; [exact Hsize|]. split; [lia|].
  transitivity
    (length (filter (λ b, b = true) (Rec.human_reviewed <$> rows df)));
    [exact (length_filter_fmap Rec.human_reviewed (λ b, b = true) (rows df))|].
  by rewrite (rows_human_reviewed _ _ Hshape).
Qed.
End ReviewCount.

(** X8: the final decision differs from the AI decision exactly on the
    overridden records, and there are at most [int(0.10 * n)] of them, a
    number that never exceeds [n]: oversight can change at most a tenth of
    the decisions. *)
Theorem X8_changed_decisions_bounded {G} `{RandomStateSpec G} n (g : G) df g' :
  generate n g = Ok (df, g') →
  ∃ size,
    F64.to_int (lit 10 100 * F64.of_Z n)%f64 = Some size
    ∧ 0 ≤ size ≤ n
    ∧ (∀ r, r ∈ rows df →
         Rec.final_decision r ≠ Rec.AI_decision r ↔ Rec.human_override r = true)
    ∧ (length (filter (λ r, Rec.final_decision r ≠ Rec.AI_decision r) (rows df))
       ≤ Z.to_nat size)%nat
    ∧ (length (filter (λ r, Rec.human_override r = true) (rows df))
       ≤ Z.to_nat size)%nat.
Proof.
  intros Hrun.
  destruct (reviewed_rows_count _ _ _ _ Hrun) as (size & Hsize & Hle & Hcount).
  apply generate_Ok in Hrun as (g1 & g2 & g3 & _ & _ & _ & E4 & _).
  assert (∀ r, r ∈ rows df →
            Rec.final_decision r ≠ Rec.AI_decision r
            ↔ Rec.human_override r = true) as Hiff.
  { intros r [i Hr]%elem_of_rows. row_lookups Hr.
    pose proof (part4_final _ _ _ _ _ _ i _ _ E4 Hai Hoverride) as Hf.
    rewrite Hfinal in Hf. injection Hf as Hf. rewrite Hf.
    destruct (Rec.human_override r); [|by split].
    split; [done|]. intros _. by destruct (Rec.AI_decision r). }
  assert (∀ r, r ∈ rows df →
            Rec.human_override r = true → Rec.human_reviewed r = true) as Hrev.
  { intros r [i Hr]%elem_of_rows Ho. row_lookups Hr. rewrite Ho in Hoverride.
    pose proof (part4_override _ _ _ _ _ _ i E4 Hoverride). congruence. }
  exists size. split; [exact Hsize|]. split; [exact Hle|].
  split; [exact Hiff|]. rewrite <- Hcount. split.
  - apply length_filter_impl. intros r Hr Hne. by apply Hrev, Hiff.
  - apply length_filter_impl. intros r Hr Ho. by apply Hrev.
Qed.

Lemma X8_changed_decisions_bounded_witness :
  ∃ df g',
    generate (G := Z) 30 42 = Ok (df, g')
    ∧ (length (filter (λ r, Rec.final_decision r ≠ Rec.AI_decision r) (rows df))
       ≤ 3)%nat.
Proof.
  eexists _, _. split; [vm_compute; reflexivity|].
  edestruct (@X8_changed_decisions_bounded Z _ lcg_spec 30 42)
    as (size & Hsize & _ & _ & Hchanged & _); [vm_compute; reflexivity|].
  rewrite review_size in Hsize by (split; [discriminate|reflexivity]).
  injection Hsize as <-. exact Hchanged.
Defined.

(** X9: capping only touches out-of-range values: for every record,
    [risk_score] equals [risk_score_uncapped] when that lies strictly
    between 0 and 1, is exactly 1.0 when it is 1 or more, and exactly 0.0
    when it is 0 or less. *)
Theorem X9_risk_capping_regimes {G} `{RandomState G} n (g : G) df g' r :
  generate n g = Ok (df, g') → r ∈ rows df →
  ((F64.zero <? Rec.risk_score_uncapped r)%f64 = true →
   (Rec.risk_score_uncapped r <? F64.one)%f64 = true →
   Rec.risk_score r = Rec.risk_score_uncapped r)
  ∧ ((F64.one <=? Rec.risk_score_uncapped r)%f64 = true →
     Rec.risk_score r = F64.one)
  ∧ ((Rec.risk_score_uncapped r <=? F64.zero)%f64 = true →
     Rec.risk_score r = F64.zero).
Proof.
  intros Hrun [i Hr]%elem_of_rows.
  apply generate_Ok in Hrun as (g1 & g2 & g3 & _ & E2 & _).
  apply part2_columns in E2 as (? & ? & ? & ? & ? & _ & _ & _ & _ & _ & Hclip & _).
  row_lookups Hr.
  rewrite Hclip, list_lookup_fmap, Hraw in Hrisk. injection Hrisk as <-.
  apply clip_unit_cases.
Qed.

Lemma X9_risk_capping_regimes_witness :
  ∃ df g' r,
    generate (G := Z) 12 42 = Ok (df, g') ∧ r ∈ rows df
    ∧ (F64.zero <? Rec.risk_score_uncapped r)%f64 = true
    ∧ (Rec.risk_score_uncapped r <? F64.one)%f64 = true
    ∧ Rec.risk_score r = Rec.risk_score_uncapped r.
Proof.
  eexists _, _, _.
  split; [vm_compute; reflexivity|].
  split; [vm_compute; constructor|].
  split; [vm_compute; reflexivity|]. split; [vm_compute; reflexivity|].
  edestruct (X9_risk_capping_regimes (G := Z) 12 42) as (Hin & _);
    [vm_compute; reflexivity|vm_compute; constructor|].
  apply Hin; vm_compute; reflexivity.
Defined.

(** X10: a run that returns a table was given [n >= 0], and the table has
    exactly [n] records: every one of the 26 columns has [n] entries and
    every position below [n] holds a complete record. *)
Theorem X10_table_shape {G} `{RandomStateSpec G} n (g : G) df g' :
  generate n g = Ok (df, g') →
  0 ≤ n
  ∧ shape (Z.to_nat n) df
  ∧ length (rows df) = Z.to_nat n
  ∧ (∀ i : nat, (i < Z.to_nat n)%nat → ∃ r, row_at df i = Some r)
  ∧ (∀ i : nat, (Z.to_nat n ≤ i)%nat → row_at df i = None).
Proof.
  intros Hrun.
  pose proof (generate_shape _ _ _ _ Hrun) as (Hn & Hshape & _).
  split; [exact Hn|]. split; [exact Hshape|].
  split; [by apply length_rows|]. split.
  - intros i Hi. by apply (row_at_total (Z.to_nat n)).
  - intros i Hi. rewrite <- (rows_lookup (Z.to_nat n)) by done.
    apply lookup_ge_None_2. rewrite (length_rows (Z.to_nat n)) by done. lia.
Qed.

Lemma X10_table_shape_witness :
  ∃ df g',
    generate (G := Z) 12 42 = Ok (df, g') ∧ length (rows df) = 12%nat.
Proof.
  eexists _, _. split; [vm_compute; reflexivity|].
  edestruct (@X10_table_shape Z _ lcg_spec 12 42) as (_ & _ & Hlen & _);
    [vm_compute; reflexivity|].
  exact Hlen.
Defined.

(** X11: a record without an established nexus is always denied by the
    AI, and its final decision is "approve" exactly when a human
    overrode it. *)
Theorem X11_no_nexus_is_denied {G} `{RandomState G} n (g : G) df g' r :
  generate n g = Ok (df, g') → r ∈ rows df →
  Rec.nexus_established r = false →
  Rec.AI_decision r = deny
  ∧ (Rec.final_decision r = approve ↔ Rec.human_override r = true).
Proof.
  intros Hrun Hr Hnx.
  pose proof (row_AI_decision _ _ _ _ _ Hrun Hr) as Hai'.
  rewrite Hnx in Hai'. unfold decide_of in Hai'.
  rewrite andb_false_r in Hai'.
  apply elem_of_rows in Hr as [i Hr].
  apply generate_Ok in Hrun as (g1 & g2 & g3 & _ & _ & _ & E4 & _).
  row_lookups Hr.
  pose proof (part4_final _ _ _ _ _ _ i _ _ E4 Hai Hoverride) as Hf.
  rewrite Hfinal in Hf. injection Hf as Hf. rewrite Hf, Hai'.
  split; [done|]. by destruct (Rec.human_override r).
Qed.

Lemma X11_no_nexus_is_denied_witness :
  ∃ df g' r,
    generate (G := Z) 12 42 = Ok (df, g') ∧ r ∈ rows df
    ∧ Rec.nexus_established r = false ∧ Rec.AI_decision r = deny.
Proof.
  eexists _, _, _.
  split; [vm_compute; reflexivity|].
  split; [vm_compute; do 6 constructor 2; constructor 1|].
  split; [reflexivity|].
  edestruct (X11_no_nexus_is_denied (G := Z) 12 42) as (Hd & _);
    [vm_compute; reflexivity|vm_compute; do 6 constructor 2; constructor 1
    |reflexivity|].
  exact Hd.
Defined.

(** X12: a record whose [credibility_score] is 0.5 or less is denied by
    the AI whatever its risk; in particular every record that the bias
    audit draws with the weights [0.40, 0.40, 0.20] (reported trauma and
    credibility below 0.5) was denied by the AI. *)
Theorem X12_low_credibility_is_denied {G} `{RandomState G} n (g : G) df g' r :
  generate n g = Ok (df, g') → r ∈ rows df →
  ((Rec.credibility_score r <=? lit 50 100)%f64 = true →
   Rec.AI_decision r = deny)
  ∧ (Rec.reported_trauma r && (Rec.credibility_score r <? lit 5 10)%f64 = true →
     Rec.AI_decision r = deny).
Proof.
  intros Hrun Hr.
  pose proof (row_AI_decision _ _ _ _ _ Hrun Hr) as Hai'.
  assert ((Rec.credibility_score r <=? lit 50 100)%f64 = true →
          Rec.AI_decision r = deny) as Hle.
  { intros Hc. rewrite Hai'. unfold decide_of, F64.gtb.
    fold (F64.ltb (lit 50 100) (Rec.credibility_score r)).
    by rewrite (leb_not_ltb _ _ Hc), andb_false_r. }
  split; [exact Hle|].
  intros [_ Hlt]%andb_prop. apply Hle.
  change (lit 50 100) with (lit 5 10). by apply ltb_leb.
Qed.

Lemma X12_low_credibility_is_denied_witness :
  ∃ df g' r,
    generate (G := Z) 12 42 = Ok (df, g') ∧ r ∈ rows df
    ∧ (Rec.credibility_score r <=? lit 50 100)%f64 = true
    ∧ Rec.AI_decision r = deny.
Proof.
  eexists _, _, _.
  split; [vm_compute; reflexivity|].
  split; [vm_compute; do 1 constructor 2; constructor 1|].
  split; [vm_compute; reflexivity|].
  edestruct (X12_low_credibility_is_denied (G := Z) 12 42) as (Hd & _);
    [vm_compute; reflexivity|vm_compute; do 1 constructor 2; constructor 1|].
  apply Hd. vm_compute; reflexivity.
Defined.

(** X13: a table of fewer than 10 records has an empty review sample
    ([int(0.10 * n) = 0]): no record is reviewed or overridden and every
    final decision is the AI decision. *)
Theorem X13_small_tables_are_unreviewed {G} `{RandomStateSpec G}
    n (g : G) df g' r :
  generate n g = Ok (df, g') → n < 10 → r ∈ rows df →
  Rec.human_reviewed r = false
  ∧ Rec.human_override r = false
  ∧ Rec.final_decision r = Rec.AI_decision r.
Proof.
  intros Hrun Hlt [i Hr]%elem_of_rows.
  pose proof (generate_shape _ _ _ _ Hrun) as (Hn & _).
  apply generate_Ok in Hrun as (g1 & g2 & g3 & _ & _ & _ & E4 & _).
  pose proof (part4_reviewed _ _ _ _ _ _ E4)
    as (size & idx & ga & Hsize & Hidx & _ & _ & Hrev).
  rewrite review_size in Hsize by lia. injection Hsize as <-.
  apply choice_no_replace_Ok in Hidx as (_ & Hlen & _); [|apply NoDup_seq].
  rewrite Z.div_small in Hlen by lia.
  destruct idx; [|done].
  row_lookups Hr.
  assert (Rec.human_reviewed r = false) as Hnr.
  { destruct (Rec.human_reviewed r) eqn:E; [|done].
    pose proof (proj1 (Hrev i _ Hreviewed) eq_refl) as Hin.
    by apply elem_of_nil in Hin. }
  assert (Rec.human_override r = false) as Hno.
  { destruct (Rec.human_override r) eqn:E; [|done].
    pose proof (part4_override _ _ _ _ _ _ i E4 Hoverride). congruence. }
  split; [exact Hnr|]. split; [exact Hno|].
  pose proof (part4_final _ _ _ _ _ _ i _ _ E4 Hai Hoverride) as Hf.
  rewrite Hno in Hf. congruence.
Qed.

Lemma X13_small_tables_are_unreviewed_witness :
  ∃ df g' r,
    generate (G := Z) 9 42 = Ok (df, g') ∧ r ∈ rows df
    ∧ Rec.human_reviewed r = false
    ∧ Rec.final_decision r = Rec.AI_decision r.
Proof.
  eexists _, _, _.
  split; [vm_compute; reflexivity|].
  split; [vm_compute; constructor|].
  edestruct (@X13_small_tables_are_unreviewed Z _ lcg_spec 9 42)
    as (Hnr & _ & Hf);
    [vm_compute; reflexivity|reflexivity|vm_compute; constructor|].
  split; [exact Hnr|exact Hf].
Defined.


(** X15: for every country and persecution type the rate handed to the
    Bernoulli draw of [reported_trauma] is a probability strictly between 0
    and 1, at most 0.80; the cap of 0.85 is never reached, so for sexual
    violence and detention the rate is just the country rate plus 0.15. *)
Theorem X15_trauma_rates_are_probabilities (c : Country) (p : PType) :
  let rate := trauma_base_ptype p (trauma_base_country c) in
  (F64.zero <? rate)%f64 = true
  ∧ (rate <? F64.one)%f64 = true
  ∧ (rate <=? lit 80 100)%f64 = true
  ∧ (rate <? lit 85 100)%f64 = true
  ∧ (isin p [sexual_violence; detention] = true →
     rate = (trauma_base_country c + lit 15 100)%f64)
  ∧ (isin p [sexual_violence; detention] = false →
     rate = trauma_base_country c).
Proof.
  destruct c, p; vm_compute; split_and!; intros; try reflexivity; discriminate.
Qed.

Lemma value_count_partition (col : list Decision) :
  (value_count approve col + value_count deny col)%nat = length col.
Proof.
  unfold value_count, count_true.
  induction col as [|d col IH]; [done|].
  rewrite !fmap_cons. destruct d.
  - rewrite (filter_cons_True _ (bool_decide (approve = approve))) by done.
    rewrite (filter_cons_False _ (bool_decide (approve = deny))) by done.
    simpl. lia.
  - rewrite (filter_cons_False _ (bool_decide (deny = approve))) by done.
    rewrite (filter_cons_True _ (bool_decide (deny = deny))) by done.
    simpl. lia.
Qed.

Lemma part5_outcome_appealed {G} `{RandomState G} n df sc ov (g : G) out g'
    (i : nat) o :
  part5 n df sc ov g = Ok (out, g') →
  appeal_outcome out !! i = Some o →
  ∃ a : bool, appealed out !! i = Some a
              ∧ if a then o = overturned ∨ o = upheld else o = NA.
Proof.
  intros Hrun Ho.
  pose proof Hrun as (appeal_rand & g1 & g2 & _ & _ & Hout & _)%part5_columns.
  apply for_each_Ok in Hout.
  destruct (Forall2_lookup_r _ _ _ _ _ Hout Ho) as (a & Ha & _).
  exists a. split; [exact Ha|].
  by apply (part5_appeal_outcome _ _ _ _ _ _ _ i _ _ Hrun Ha Ho).
Qed.

(** X16: the counts of the printed summary are ordered: the number of
    overturned appeals is at most the number of appeals filed, which is at
    most the number of final denials; the number of records with reported
    trauma and credibility below 0.5 is at most the number of AI denials;
    and final approvals and final denials add up to [n]. *)
Theorem X16_summary_counts {G} `{RandomStateSpec G} n (g : G) df g' :
  generate n g = Ok (df, g') →
  (appeals_overturned df ≤ appeals_filed df)%nat
  ∧ (appeals_filed df ≤ value_count deny (final_decision (oversight df)))%nat
  ∧ (trauma_low_credibility df ≤ value_count deny (AI_decision df))%nat
  ∧ (value_count approve (final_decision (oversight df))
     + value_count deny (final_decision (oversight df)))%nat = Z.to_nat n
  ∧ (value_count approve (AI_decision df)
     + value_count deny (AI_decision df))%nat = Z.to_nat n.
Proof.
  intros Hrun.
  pose proof (generate_shape _ _ _ _ Hrun) as (Hn & Hshape & _).
  apply generate_Ok in Hrun as (g1 & g2 & g3 & _ & _ & E3 & _ & E5).
  destruct Hshape as (_ & (Lc & _) & Lai & (_ & _ & Lfin & _) & _).
  split_and!.
  - unfold appeals_overturned, appeals_filed, value_count.
    apply count_true_le. intros i Hi.
    rewrite list_lookup_fmap in Hi.
    destruct (appeal_outcome (outcomes df) !! i) as [o|] eqn:Ho; [|done].
    simpl in Hi. injection Hi as Hi. apply bool_decide_eq_true in Hi as ->.
    destruct (part5_outcome_appealed _ _ _ _ _ _ _ i _ E5 Ho) as (a & Ha & Hcase).
    by destruct a.
  - unfold appeals_filed, value_count.
    apply count_true_le. intros i Hi.
    pose proof (part5_appealed _ _ _ _ _ _ _ E5) as (appeal_rand & gb & _ & Happ).
    destruct (Happ i _ Hi) as (f & x & Hf & _ & Hd).
    symmetry in Hd. apply andb_prop in Hd as [Hd _].
    by rewrite list_lookup_fmap, Hf; simpl; rewrite Hd.
  - unfold trauma_low_credibility, value_count.
    apply count_true_le. intros i Hi.
    apply lookup_zip_with_Some in Hi as (t & c & Htc & Ht & Hc).
    destruct (lookup_lt_is_Some_2 (AI_decision df) i) as [d Hd].
    { apply lookup_lt_Some in Hc. lia. }
    rewrite list_lookup_fmap, Hd. simpl. f_equal.
    apply bool_decide_eq_true.
    rewrite E3 in Hd.
    apply part3_lookup in Hd as (risk & cred & nx & sp & _ & Hcred & _ & _ & ->).
    assert (cred = c) as -> by congruence.
    symmetry in Htc. apply andb_prop in Htc as [_ Hlt].
    unfold decide_of, F64.gtb. fold (F64.ltb (lit 50 100) c).
    change (lit 50 100) with (lit 5 10).
    by rewrite (ltb_asym _ _ Hlt), andb_false_r.
  - by rewrite value_count_partition.
  - by rewrite value_count_partition.
Qed.

Lemma X16_summary_counts_witness :
  ∃ df g',
    generate (G := Z) 30 42 = Ok (df, g')
    ∧ (appeals_overturned df ≤ appeals_filed df)%nat
    ∧ (appeals_filed df ≤ value_count deny (final_decision (oversight df)))%nat.
Proof.
  eexists _, _. split; [vm_compute; reflexivity|].
  edestruct (@X16_summary_counts Z _ lcg_spec 30 42) as (H1 & H2 & _);
    [vm_compute; reflexivity|].
  split; [exact H1|exact H2].
Defined.

Lemma length_filter_or {A} (P Q R : A → Prop)
    `{∀ x, base.Decision (P x)} `{∀ x, base.Decision (Q x)}
    `{∀ x, base.Decision (R x)} (l : list A) :
  (∀ x, x ∈ l → P x → Q x ∨ R x) →
  (length (filter P l) ≤ length (filter Q l) + length (filter R l))%nat.
Proof.
  induction l as [|x l IH]; intros Himpl; [simpl; lia|].
  assert (length (filter P l) ≤ length (filter Q l) + length (filter R l))%nat
    as IH'.
  { apply IH. intros y Hy. apply Himpl. by right. }
  assert (length (filter Q l) ≤ length (filter Q (x :: l)))%nat as HQ.
  { destruct (decide (Q x)).
    - rewrite (filter_cons_True Q) by done. simpl. lia.
    - by rewrite (filter_cons_False Q) by done. }
  assert (length (filter R l) ≤ length (filter R (x :: l)))%nat as HR.
  { destruct (decide (R x)).
    - rewrite (filter_cons_True R) by done. simpl. lia.
    - by rewrite (filter_cons_False R) by done. }
  destruct (decide (P x)) as [HP|HP].
  - rewrite (filter_cons_True P) by done. simpl.
    destruct (Himpl x) as [Hq|Hr]; [by left|done|..].
    + rewrite (filter_cons_True Q) by done. simpl. lia.
    + rewrite (filter_cons_True R) by done. simpl. lia.
  - rewrite (filter_cons_False P) by done. lia.
Qed.

(** X17: human oversight moves the approval count by at most the size of
    the review sample: the numbers of records approved by the AI and
    approved in the final decision differ by at most [int(0.10 * n)]. *)
Theorem X17_approval_count_shift_bounded {G} `{RandomStateSpec G}
    n (g : G) df g' :
  generate n g = Ok (df, g') →
  ∃ size,
    F64.to_int (lit 10 100 * F64.of_Z n)%f64 = Some size
    ∧ (length (filter (λ r, Rec.final_decision r = approve) (rows df))
       ≤ length (filter (λ r, Rec.AI_decision r = approve) (rows df))
         + Z.to_nat size)%nat
    ∧ (length (filter (λ r, Rec.AI_decision r = approve) (rows df))
       ≤ length (filter (λ r, Rec.final_decision r = approve) (rows df))
         + Z.to_nat size)%nat.
Proof.
  intros Hrun.
  destruct (reviewed_rows_count _ _ _ _ Hrun) as (size & Hsize & _ & Hcount).
  apply generate_Ok in Hrun as (g1 & g2 & g3 & _ & _ & _ & E4 & _).
  assert (∀ r, r ∈ rows df →
            Rec.final_decision r = Rec.AI_decision r
            ∨ Rec.human_reviewed r = true) as Hcase.
  { intros r [i Hr]%elem_of_rows. row_lookups Hr.
    pose proof (part4_final _ _ _ _ _ _ i _ _ E4 Hai Hoverride) as Hf.
    rewrite Hfinal in Hf. injection Hf as Hf.
    destruct (Rec.human_override r) eqn:Ho; [right|by left].
    pose proof (part4_override _ _ _ _ _ _ i E4 Hoverride). congruence. }
  exists size. split; [exact Hsize|]. rewrite <- Hcount. split.
  - apply length_filter_or. intros r Hr Hf.
    destruct (Hcase r Hr) as [Heq|Hrev]; [left; congruence|by right].
  - apply length_filter_or. intros r Hr Hai.
    destruct (Hcase r Hr) as [Heq|Hrev]; [left; congruence|by right].
Qed.

Lemma X17_approval_count_shift_bounded_witness :
  ∃ df g',
    generate (G := Z) 30 42 = Ok (df, g')
    ∧ (length (filter (λ r, Rec.AI_decision r = approve) (rows df))
       ≤ length (filter (λ r, Rec.final_decision r = approve) (rows df)) + 3)%nat.
Proof.
  eexists _, _. split; [vm_compute; reflexivity|].
  edestruct (@X17_approval_count_shift_bounded Z _ lcg_spec 30 42)
    as (size & Hsize & _ & Hle); [vm_compute; reflexivity|].
  rewrite review_size in Hsize by (split; [discriminate|reflexivity]).
  injection Hsize as <-. exact Hle.
Defined.
